(** * EcoPure marketplace: cart and checkout

  A shallow embedding of the cart and checkout logic of the storefront:

  - [groupedBySeller] and [handleSubmit] of
    [src/components/CheckoutModal.tsx],
  - [loadCart], [updateQuantity] and [removeItem] of
    [src/components/CartModal.tsx],
  - [loadCartCount], [handleAddToCart] and [handleMessageSeller] of the
    storefront page ([src/pages/BuyerDashboard.tsx], lines 342-431),

  over a model of the four tables they touch ([orders], [order_items],
  [products], [cart_items] of the database schema), with the constraints
  and the row-level policies of the schema that decide what these calls
  do.

  The handlers are [async] functions that await one remote call after the
  other.  They are embedded in a state-and-exception monad [Async] over a
  [World]: the tables, the number of remote calls issued so far and the
  chronological trace of remote calls and UI effects. *)

From stdpp Require Import base numbers list strings infinite.

Local Open Scope Z_scope.

(** ** Enumerations of the schema *)

(** [orders.status] and [orders.payment_status]: the string unions of the
  [Order] type, also the [CHECK (... IN (...))] lists of the schema. *)
Module OrderStatus.
Inductive t := pending | confirmed | shipped | delivered | cancelled.
End OrderStatus.

Module PaymentStatus.
Inductive t := pending | paid | refunded.
End PaymentStatus.

(** [profiles.role]. *)
Module Role.
Inductive t := buyer | seller | admin.
End Role.

Global Instance Role_eq_dec : EqDecision Role.t.
Proof. solve_decision. Defined.

(** ** Amounts

  Prices and totals are JavaScript numbers read from [decimal(10,2)]
  columns.  The code only ever combines them with the literal [0], with
  [+] and with [price * quantity]; the development is parametric in these
  three operations and assumes no law about them, so every statement holds
  for whatever arithmetic the runtime performs.  Quantities and stock
  levels are [integer] columns and are modelled by [Z]. *)
Class Amount (num : Type) := {
  zero : num;
  plus : num → num → num;
  times : num → Z → num;
}.

(** Amounts in minor units. *)
Global Instance Z_Amount : Amount Z :=
  {| zero := 0; plus := Z.add; times := Z.mul |}.


(** The address part of the checkout form, stored as the [jsonb] value of
  [shipping_address] and [billing_address]. *)
Record Address := {
  addr_fullName : string;
  addr_phone : string;
  addr_address : string;
  addr_city : string;
  addr_state : string;
  addr_pincode : string;
}.

(** [formData] of the checkout modal. *)
Record FormData := {
  fullName : string;
  phone : string;
  address : string;
  city : string;
  state : string;
  pincode : string;
  paymentMethod : string;
}.

(** The outcome of a remote call: the client library resolves every call to
  a [{ data, error }] pair and never rejects; [inr e] is a non-null
  [error], [inl d] a null [error] with data [d]. *)
Definition PostgrestError := string.

(** What the surroundings of one run supply: for the [n]-th remote call of
  the run, whether the backend answers it with an error (network failure,
  constraint violation, policy denial); and the order number that
  [Date.now()] and [Math.random()] yield when drawn after [n] calls. *)
Record Backend := {
  failure : nat → option PostgrestError;
  orderNumber : nat → string;
}.

(** A backend that fails no call: every call reaches the store and is
    answered by it, with an error only where a constraint carried by the
    model rejects the statement. *)
Definition reliable (b : Backend) : Prop := ∀ n, failure b n = None.

Section Marketplace.

(** Row identifiers are UUIDs.  Only their equality is used, and the
    store can always generate one that is not in use
    ([gen_random_uuid()]). *)
Context {uuid : Type} `{!EqDecision uuid, !Infinite uuid}.
Context {num : Type} `{!Amount num}.

(** ** Rows *)

Record Product := {
  prod_id : uuid;
  prod_seller_id : uuid;
  prod_name : string;
  prod_price : num;
  prod_stock_quantity : Z;
  prod_is_active : bool;
}.

Record CartItem := {
  cart_id : uuid;
  cart_buyer_id : uuid;
  cart_product_id : uuid;
  cart_quantity : Z;
}.

(** [CartItem & { product: Product }]: a cart row together with the
    snapshot of its product taken when the cart was loaded. *)
Record CartLine := {
  line : CartItem;
  product : Product;
}.

Record Order := {
  ord_id : uuid;
  ord_order_number : string;
  ord_buyer_id : uuid;
  ord_seller_id : uuid;
  ord_total_amount : num;
  ord_status : OrderStatus.t;
  ord_payment_status : PaymentStatus.t;
  ord_payment_method : string;
  ord_shipping_address : Address;
  ord_billing_address : Address;
}.

Record OrderItem := {
  item_order_id : uuid;
  item_product_id : uuid;
  item_quantity : Z;
  item_price_per_unit : num;
  item_total_price : num;
}.

(** ** The store *)

Record Store := {
  orders : list Order;
  order_items : list OrderItem;
  products : list Product;
  cart_items : list CartItem;
}.

(** Remote calls, as they appear in the trace. *)
Inductive Request :=
| orders_insert
| order_items_insert
| products_update (id : uuid) (stock_quantity : Z)
| cart_items_delete_buyer (buyer_id : uuid)
| cart_items_select (buyer_id : uuid)
| cart_items_select_quantity (buyer_id : uuid)
| cart_items_update (id : uuid) (quantity : Z)
| cart_items_find (buyer_id product_id : uuid)
| cart_items_insert (buyer_id product_id : uuid).

Inductive Event :=
| Remote (req : Request) (error : option PostgrestError)
| SetLoading (b : bool)
| SetCartItems (data : list (CartItem * option Product))
| SetCartCount (total : Z)
| SetShowAuthModal (b : bool)
| OnSuccess
| OnClose
| ConsoleError (msg : string)
| Alert (msg : string).

Record World := {
  store : Store;
  clock : nat;
  trace : list Event;
}.

(** ** The monad of [async] functions *)

Inductive Completion (A : Type) :=
| Normal (a : A)
| Thrown (e : PostgrestError).
Global Arguments Normal {A} a.
Global Arguments Thrown {A} e.

Definition Async (A : Type) : Type := World → Completion A * World.

Definition ret {A} (a : A) : Async A := λ w, (Normal a, w).

Definition throw {A} (e : PostgrestError) : Async A := λ w, (Thrown e, w).

Definition bind {A B} (m : Async A) (k : A → Async B) : Async B :=
  λ w, match m w with
       | (Normal a, w1) => k a w1
       | (Thrown e, w1) => (Thrown e, w1)
       end.

Notation "x ← m ; k" := (bind m (λ x, k))
  (at level 20, m at level 100, k at level 200, only parsing).
Notation "m ;; k" := (bind m (λ _, k))
  (at level 100, k at level 200, right associativity, only parsing).

(** [try { body } catch (error) { handler } finally { final }]. *)
Definition try_catch_finally
    (body : Async unit) (handler : PostgrestError → Async unit)
    (final : Async unit) : Async unit :=
  λ w, match body w with
       | (Normal _, w1) => final w1
       | (Thrown e, w1) =>
           match handler e w1 with
           | (Normal _, w2) => final w2
           | (Thrown e', w2) =>
               match final w2 with
               | (Normal _, w3) => (Thrown e', w3)
               | r => r
               end
           end
       end.

(** [try { body } catch (error) { handler }]. *)
Definition try_catch
    (body : Async unit) (handler : PostgrestError → Async unit) : Async unit :=
  try_catch_finally body handler (ret tt).

(** [for (const x of l) { body }]. *)
Fixpoint for_of {A} (l : list A) (body : A → Async unit) : Async unit :=
  match l with
  | [] => ret tt
  | x :: l' => body x;; for_of l' body
  end.

(** A UI effect. *)
Definition emit (e : Event) : Async unit :=
  λ w, (Normal tt,
        {| store := store w; clock := clock w; trace := trace w ++ [e] |}).

Context (backend : Backend).

(** One awaited remote call.  The backend either answers with an error and
    leaves the tables as they are, or applies [effect]; [effect] itself
    answers with an error where the model carries the rule of the schema
    that rejects the statement (the uniqueness of cart rows, the check on
    the stock of a product).  The other checks of the schema are covered by
    [failure]: a statement that they reject is a call answered with an
    error.  The calls of other clients are outside the model.

    The client sends every call with the session of the signed-in user,
    and the store evaluates the row-level policies of the schema against
    it: [auth.uid()] is the id of [user], and null for a visitor.  Where a
    call filters or writes rows by the id of the user itself ([buyer_id]
    of an order, of a cart row, of a chat), the policy of its table holds
    by construction.  The calls that address a row by its own [id], and
    the read of catalog rows, take [auth.uid()] as [uid]: there the policy
    decides which rows the call reaches. *)
Definition remote {A} (req : Request)
    (effect : Store → A * Store + PostgrestError)
    : Async (A + PostgrestError) :=
  λ w,
    let answer :=
      match failure backend (clock w) with
      | Some e => inr e
      | None => effect (store w)
      end in
    match answer with
    | inl (a, s) =>
        (Normal (inl a),
         {| store := s; clock := S (clock w);
            trace := trace w ++ [Remote req None] |})
    | inr e =>
        (Normal (inr e),
         {| store := store w; clock := S (clock w);
            trace := trace w ++ [Remote req (Some e)] |})
    end.

(** ** Remote calls of the checkout *)

(** [from('orders').insert(row).select().single()]: the store gives the row
    an [id] that no order has ([DEFAULT gen_random_uuid()], primary key)
    and answers with the stored row. *)
Definition from_orders_insert (row : uuid → Order)
    : Async (Order + PostgrestError) :=
  remote orders_insert (λ s,
    let order := row (fresh (ord_id <$> orders s)) in
    inl (order,
         {| orders := orders s ++ [order];
            order_items := order_items s;
            products := products s;
            cart_items := cart_items s |})).

(** [from('order_items').insert(rows)]. *)
Definition from_order_items_insert (rows : list OrderItem)
    : Async (unit + PostgrestError) :=
  remote order_items_insert (λ s,
    inl (tt,
         {| orders := orders s;
            order_items := order_items s ++ rows;
            products := products s;
            cart_items := cart_items s |})).

Definition set_stock_quantity (stock_quantity : Z) (p : Product) : Product :=
  {| prod_id := prod_id p;
     prod_seller_id := prod_seller_id p;
     prod_name := prod_name p;
     prod_price := prod_price p;
     prod_stock_quantity := stock_quantity;
     prod_is_active := prod_is_active p |}.

(** [from('products').update({ stock_quantity }).eq('id', id)].  The
    policy [Sellers can update own products] ([USING (seller_id =
    auth.uid())]) lets the statement reach only the rows whose seller is
    the session user: any other row is skipped, without an error.  A row
    that is reached must keep [CHECK (stock_quantity >= 0)], or the
    statement fails and changes nothing. *)
Definition from_products_update (uid : option uuid) (stock_quantity : Z)
    (id : uuid) : Async (unit + PostgrestError) :=
  remote (products_update id stock_quantity) (λ s,
    if decide (stock_quantity < 0
               ∧ Exists (λ p, prod_id p = id ∧ uid = Some (prod_seller_id p))
                        (products s))
    then inr "new row for relation products violates check constraint"
    else
      inl (tt,
           {| orders := orders s;
              order_items := order_items s;
              products :=
                map (λ p, if decide (prod_id p = id
                                     ∧ uid = Some (prod_seller_id p))
                          then set_stock_quantity stock_quantity p else p)
                    (products s);
              cart_items := cart_items s |})).

(** [from('cart_items').delete().eq('buyer_id', buyer_id)]. *)
Definition from_cart_items_delete_buyer (buyer_id : uuid)
    : Async (unit + PostgrestError) :=
  remote (cart_items_delete_buyer buyer_id) (λ s,
    inl (tt,
         {| orders := orders s;
            order_items := order_items s;
            products := products s;
            cart_items :=
              filter (λ c, cart_buyer_id c ≠ buyer_id) (cart_items s) |})).

(** ** [CheckoutModal]: grouping *)

(** The accumulator of [groupedBySeller] is an object used as a map from
    seller id to an array of lines.  Its keys are UUIDs, so [Object.entries]
    lists them in the order in which they were first assigned: the object is
    the list of its entries in that order. *)
Fixpoint obj_get {V} (acc : list (uuid * V)) (key : uuid) : option V :=
  match acc with
  | [] => None
  | (k, v) :: acc' => if decide (k = key) then Some v else obj_get acc' key
  end.

Fixpoint obj_set {V} (acc : list (uuid * V)) (key : uuid) (v : V)
    : list (uuid * V) :=
  match acc with
  | [] => [(key, v)]
  | (k, v') :: acc' =>
      if decide (k = key) then (k, v) :: acc'
      else (k, v') :: obj_set acc' key v
  end.

(** One step of the [reduce]: [if (!acc[sellerId]) acc[sellerId] = [];
    acc[sellerId].push(item); return acc].  An array is truthy, so the test
    succeeds exactly when the key is absent. *)
Definition groupedBySeller_step
    (acc : list (uuid * list CartLine)) (item : CartLine)
    : list (uuid * list CartLine) :=
  let sellerId := prod_seller_id (product item) in
  let acc :=
    match obj_get acc sellerId with
    | None => obj_set acc sellerId []
    | Some _ => acc
    end in
  match obj_get acc sellerId with
  | Some sellerItems => obj_set acc sellerId (sellerItems ++ [item])
  | None => acc
  end.

Definition groupedBySeller (items : list CartLine)
    : list (uuid * list CartLine) :=
  fold_left groupedBySeller_step items [].

(** ** [CheckoutModal]: [handleSubmit] *)

Definition totalAmount (sellerItems : list CartLine) : num :=
  fold_left
    (λ sum item,
       plus sum (times (prod_price (product item)) (cart_quantity (line item))))
    sellerItems zero.

Definition orderItems (order : Order) (sellerItems : list CartLine)
    : list OrderItem :=
  map (λ item,
         {| item_order_id := ord_id order;
            item_product_id := cart_product_id (line item);
            item_quantity := cart_quantity (line item);
            item_price_per_unit := prod_price (product item);
            item_total_price :=
              times (prod_price (product item)) (cart_quantity (line item)) |})
      sellerItems.

(** [`ORD-${Date.now()}-${Math.random()...}`]. *)
Definition draw_order_number : Async string :=
  λ w, (Normal (orderNumber backend (clock w)), w).

(** The body of the loop over [Object.entries(groupedBySeller)]. *)
Definition handleSubmit_seller (user_id : uuid) (formData : FormData)
    (entry : uuid * list CartLine) : Async unit :=
  let '(sellerId, sellerItems) := entry in
  let totalAmount := totalAmount sellerItems in
  orderNumber ← draw_order_number;
  r ← from_orders_insert (λ id,
        {| ord_id := id;
           ord_order_number := orderNumber;
           ord_buyer_id := user_id;
           ord_seller_id := sellerId;
           ord_total_amount := totalAmount;
           ord_status := OrderStatus.pending;
           ord_payment_status :=
             if decide (paymentMethod formData = "cod")
             then PaymentStatus.pending else PaymentStatus.paid;
           ord_payment_method := paymentMethod formData;
           ord_shipping_address :=
             {| addr_fullName := fullName formData;
                addr_phone := phone formData;
                addr_address := address formData;
                addr_city := city formData;
                addr_state := state formData;
                addr_pincode := pincode formData |};
           ord_billing_address :=
             {| addr_fullName := fullName formData;
                addr_phone := phone formData;
                addr_address := address formData;
                addr_city := city formData;
                addr_state := state formData;
                addr_pincode := pincode formData |} |});
  match r with
  | inr orderError => throw orderError
  | inl order =>
      r ← from_order_items_insert (orderItems order sellerItems);
      match r with
      | inr itemsError => throw itemsError
      | inl _ =>
          for_of sellerItems (λ item,
            _ ← from_products_update (Some user_id)
                  (prod_stock_quantity (product item)
                   - cart_quantity (line item))
                  (cart_product_id (line item));
            ret tt)
      end
  end.

Definition handleSubmit (user : option uuid) (formData : FormData)
    (items : list CartLine) : Async unit :=
  match user with
  | None => ret tt
  | Some user_id =>
      emit (SetLoading true);;
      try_catch_finally
        (for_of (groupedBySeller items) (handleSubmit_seller user_id formData);;
         _ ← from_cart_items_delete_buyer user_id;
         emit OnSuccess;;
         emit OnClose)
        (λ error,
           emit (ConsoleError "Error creating order:");;
           emit (Alert "Failed to create order. Please try again."))
        (emit (SetLoading false))
  end.


(** ** Remote calls on the cart *)

Definition set_quantity (quantity : Z) (c : CartItem) : CartItem :=
  {| cart_id := cart_id c;
     cart_buyer_id := cart_buyer_id c;
     cart_product_id := cart_product_id c;
     cart_quantity := quantity |}.

(** [from('cart_items').select(...).eq('buyer_id', id)] with the embedded
    resource [product:products]: the buyer's rows, each with the catalog row
    its [product_id] refers to, if the session may read that row.  The
    policies of [products] show a row when it is active ([Anyone can view
    active products]) or sold by the session user ([Sellers can view own
    products]); for a row that is hidden the embedded [product] is null.
    The handler calls this with the id of the session user. *)
Definition from_cart_items_select (buyer_id : uuid)
    : Async (list (CartItem * option Product) + PostgrestError) :=
  remote (cart_items_select buyer_id) (λ s,
    inl (map (λ c, (c, find (λ p, bool_decide
                                    (prod_id p = cart_product_id c
                                     ∧ (prod_is_active p = true
                                        ∨ prod_seller_id p = buyer_id)))
                            (products s)))
             (filter (λ c, cart_buyer_id c = buyer_id) (cart_items s)),
         s)).

(** [from('cart_items').select('quantity').eq('buyer_id', id)]. *)
Definition from_cart_items_select_quantity (buyer_id : uuid)
    : Async (list Z + PostgrestError) :=
  remote (cart_items_select_quantity buyer_id) (λ s,
    inl (map cart_quantity
             (filter (λ c, cart_buyer_id c = buyer_id) (cart_items s)),
         s)).

(** [from('cart_items').update({ quantity }).eq('id', id)].  The policy
    [Buyers can update own cart] ([USING (buyer_id = auth.uid())]) lets the
    statement reach only the rows of the session user: a row of another
    buyer is skipped, without an error. *)
Definition from_cart_items_update (uid : option uuid) (quantity : Z)
    (id : uuid) : Async (unit + PostgrestError) :=
  remote (cart_items_update id quantity) (λ s,
    inl (tt,
         {| orders := orders s;
            order_items := order_items s;
            products := products s;
            cart_items :=
              map (λ c, if decide (cart_id c = id
                                   ∧ uid = Some (cart_buyer_id c))
                        then set_quantity quantity c else c)
                  (cart_items s) |})).

(** [from('cart_items').select(...).eq('buyer_id', b).eq('product_id', p)
    .maybeSingle()]: no row gives [null], one row gives the row, several
    rows give an error. *)
Definition from_cart_items_find (buyer_id product_id : uuid)
    : Async (option CartItem + PostgrestError) :=
  remote (cart_items_find buyer_id product_id) (λ s,
    match filter (λ c, cart_buyer_id c = buyer_id
                       ∧ cart_product_id c = product_id) (cart_items s) with
    | [] => inl (None, s)
    | [c] => inl (Some c, s)
    | _ => inr "JSON object requested, multiple (or no) rows returned"
    end).

(** [from('cart_items').insert({ buyer_id, product_id, quantity })].  The
    table is declared [UNIQUE(buyer_id, product_id)]: the store rejects a
    second row for the pair.  The new row gets an unused [id]. *)
Definition from_cart_items_insert (buyer_id product_id : uuid) (quantity : Z)
    : Async (unit + PostgrestError) :=
  remote (cart_items_insert buyer_id product_id) (λ s,
    match filter (λ c, cart_buyer_id c = buyer_id
                       ∧ cart_product_id c = product_id) (cart_items s) with
    | [] =>
        inl (tt,
             {| orders := orders s;
                order_items := order_items s;
                products := products s;
                cart_items :=
                  cart_items s ++
                  [{| cart_id := fresh (cart_id <$> cart_items s);
                      cart_buyer_id := buyer_id;
                      cart_product_id := product_id;
                      cart_quantity := quantity |}] |})
    | _ => inr "duplicate key value violates unique constraint"
    end).

(** ** [CartModal] *)

Definition loadCart (user : option uuid) : Async unit :=
  match user with
  | None => ret tt
  | Some user_id =>
      emit (SetLoading true);;
      try_catch_finally
        (r ← from_cart_items_select user_id;
         match r with
         | inr error => throw error
         | inl data => emit (SetCartItems data)
         end)
        (λ error, emit (ConsoleError "Error loading cart:"))
        (emit (SetLoading false))
  end.

Definition updateQuantity (user : option uuid) (itemId : uuid)
    (newQuantity : Z) : Async unit :=
  if decide (newQuantity < 1) then ret tt
  else
    try_catch
      (r ← from_cart_items_update user newQuantity itemId;
       match r with
       | inr error => throw error
       | inl _ => loadCart user
       end)
      (λ error, emit (ConsoleError "Error updating quantity:")).

(** ** Storefront page: adding to the cart *)

Definition loadCartCount (user : option uuid) : Async unit :=
  match user with
  | None => ret tt
  | Some user_id =>
      try_catch
        (r ← from_cart_items_select_quantity user_id;
         match r with
         | inr error => throw error
         | inl data =>
             let total := fold_left (λ sum quantity, sum + quantity) data 0 in
             emit (SetCartCount total)
         end)
        (λ error, emit (ConsoleError "Error loading cart count:"))
  end.

Definition handleAddToCart (user : option uuid) (profile : option Role.t)
    (product : Product) : Async unit :=
  match user with
  | None => emit (SetShowAuthModal true)
  | Some user_id =>
      if decide (profile ≠ Some Role.buyer)
      then emit (Alert "Only buyers can add items to cart")
      else
        try_catch
          (r ← from_cart_items_find user_id (prod_id product);
           let existingItem :=
             match r with inl data => data | inr _ => None end in
           match existingItem with
           | Some existingItem =>
               r ← from_cart_items_update (Some user_id)
                     (cart_quantity existingItem + 1) (cart_id existingItem);
               match r with
               | inr error => throw error
               | inl _ => ret tt
               end
           | None =>
               r ← from_cart_items_insert user_id (prod_id product) 1;
               match r with
               | inr error => throw error
               | inl _ => ret tt
               end
           end;;
           loadCartCount user)
          (λ error,
             emit (ConsoleError "Error adding to cart:");;
             emit (Alert "Failed to add item to cart"))
  end.

(** ** Notions used to state the properties *)

(** The address that the form holds. *)
Definition form_address (formData : FormData) : Address :=
  {| addr_fullName := fullName formData;
     addr_phone := phone formData;
     addr_address := address formData;
     addr_city := city formData;
     addr_state := state formData;
     addr_pincode := pincode formData |}.

(** The row for which [handleSubmit] asks the store. *)
Definition order_row (user_id : uuid) (formData : FormData)
    (sellerId : uuid) (sellerItems : list CartLine)
    (number : string) (id : uuid) : Order :=
  {| ord_id := id;
     ord_order_number := number;
     ord_buyer_id := user_id;
     ord_seller_id := sellerId;
     ord_total_amount := totalAmount sellerItems;
     ord_status := OrderStatus.pending;
     ord_payment_status :=
       if decide (paymentMethod formData = "cod")
       then PaymentStatus.pending else PaymentStatus.paid;
     ord_payment_method := paymentMethod formData;
     ord_shipping_address := form_address formData;
     ord_billing_address := form_address formData |}.

(** The order that [handleSubmit] stores for a group when it starts on the
    group in world [w]. *)
Definition next_order (user_id : uuid) (formData : FormData)
    (sellerId : uuid) (sellerItems : list CartLine) (w : World) : Order :=
  order_row user_id formData sellerId sellerItems
    (orderNumber backend (clock w)) (fresh (ord_id <$> orders (store w))).

(** The world after [setLoading(true)]. *)
Definition loading (w : World) : World :=
  {| store := store w; clock := clock w;
     trace := trace w ++ [SetLoading true] |}.

(** The catalog after the stock update of one line, issued in the session
    of [uid] and not failed by the backend: the rows of the product that
    [uid] sells get the stock that the line asks for, unless that is
    negative; then the store rejects the update, or there is no such row. *)
Definition stock_step (uid : option uuid) (ps : list Product)
    (item : CartLine) : list Product :=
  if decide (prod_stock_quantity (product item) - cart_quantity (line item) < 0)
  then ps
  else
    map (λ p, if decide (prod_id p = cart_product_id (line item)
                         ∧ uid = Some (prod_seller_id p))
              then set_stock_quantity
                     (prod_stock_quantity (product item)
                      - cart_quantity (line item)) p
              else p) ps.

(** The same on one row. *)
Definition stock_row (uid : option uuid) (p : Product) (item : CartLine)
    : Product :=
  if decide (prod_stock_quantity (product item) - cart_quantity (line item) < 0)
  then p
  else if decide (prod_id p = cart_product_id (line item)
                  ∧ uid = Some (prod_seller_id p))
       then set_stock_quantity
              (prod_stock_quantity (product item) - cart_quantity (line item))
              p
       else p.

(** The stock update of a line reaches a catalog row when the row is that
    of the product of the line, the session user sells it, and the stock
    asked for is not negative. *)
Definition reached (uid : option uuid) (p : Product) (item : CartLine)
    : Prop :=
  prod_id p = cart_product_id (line item)
  ∧ uid = Some (prod_seller_id p)
  ∧ 0 ≤ prod_stock_quantity (product item) - cart_quantity (line item).

Definition stock_request (item : CartLine) : Request :=
  products_update (cart_product_id (line item))
    (prod_stock_quantity (product item) - cart_quantity (line item)).

(** The events that the loop over the seller groups can add to the trace. *)
Definition checkout_call (e : Event) : Prop :=
  match e with
  | Remote orders_insert _
  | Remote order_items_insert _
  | Remote (products_update _ _) _ => True
  | _ => False
  end.

(** What a run that starts in [w] and ends in [w'] added to the trace. *)
Definition new_events (w w' : World) : list Event :=
  drop (length (trace w)) (trace w').

(** [order.total_amount] recomputed from stored item rows. *)
Definition sum_total_price (rows : list OrderItem) : num :=
  fold_left (λ sum row, plus sum (item_total_price row)) rows zero.

(** The stored line items of an order. *)
Definition items_of (s : Store) (order : Order) : list OrderItem :=
  filter (λ row, item_order_id row = ord_id order) (order_items s).

(** [order_items.order_id REFERENCES orders(id)]. *)
Definition referential (s : Store) : Prop :=
  ∀ row, row ∈ order_items s → item_order_id row ∈ ord_id <$> orders s.

(** [UNIQUE(buyer_id, product_id)] and the primary key of [cart_items]. *)
Definition cart_pair (c : CartItem) : uuid * uuid :=
  (cart_buyer_id c, cart_product_id c).

Definition cart_unique (s : Store) : Prop :=
  NoDup (cart_pair <$> cart_items s).

Definition cart_keyed (s : Store) : Prop :=
  NoDup (cart_id <$> cart_items s).

(** ** Further notions *)

(** [total] of [CheckoutModal] and of [CartModal]: the amount shown to the
    buyer, [items.reduce((sum, item) => sum + item.product.price *
    item.quantity, 0)]. *)
Definition total (items : list CartLine) : num :=
  fold_left
    (λ sum item,
       plus sum (times (prod_price (product item)) (cart_quantity (line item))))
    items zero.

(** Exact arithmetic: [+] is associative and commutative and [0] is its
    unit.  Integers satisfy it; floating-point [+] is not associative. *)
Definition exact_arithmetic : Prop :=
  (∀ a b c : num, plus (plus a b) c = plus a (plus b c))
  ∧ (∀ a b : num, plus a b = plus b a)
  ∧ (∀ a : num, plus zero a = a).

(** The sum of the [total_amount] of a list of orders. *)
Definition sum_total_amount (created : list Order) : num :=
  fold_left (λ sum order, plus sum (ord_total_amount order)) created zero.

(** The distinct elements of a list, each at its first occurrence. *)
Fixpoint first_occurrences (l : list uuid) : list uuid :=
  match l with
  | [] => []
  | x :: l' => x :: filter (λ y, y ≠ x) (first_occurrences l')
  end.

(** What an item row says about its line. *)
Definition row_line (row : OrderItem) : uuid * Z * num * num :=
  (item_product_id row, item_quantity row, item_price_per_unit row,
   item_total_price row).

Definition line_row (item : CartLine) : uuid * Z * num * num :=
  (cart_product_id (line item), cart_quantity (line item),
   prod_price (product item),
   times (prod_price (product item)) (cart_quantity (line item))).

(** An insert of the checkout that the backend answered with an error. *)
Definition insert_failed (e : Event) : Prop :=
  match e with
  | Remote orders_insert (Some _)
  | Remote order_items_insert (Some _) => True
  | _ => False
  end.

(** A stock update, answered or not. *)
Definition stock_call (e : Event) : Prop :=
  match e with
  | Remote (products_update _ _) _ => True
  | _ => False
  end.

(** How a checkout of [items] may change a catalog row: nothing but the
    stock, and only for a product of one of the lines. *)
Definition stock_only (items : list CartLine) (p p' : Product) : Prop :=
  prod_id p' = prod_id p
  ∧ prod_seller_id p' = prod_seller_id p
  ∧ prod_name p' = prod_name p
  ∧ prod_price p' = prod_price p
  ∧ prod_is_active p' = prod_is_active p
  ∧ (prod_id p ∉ (cart_product_id ∘ line <$> items) → p' = p).

(** How the loop over the groups can end, given the calls [es] it issued:
    normally, no insert having failed; or with the error of an insert, which
    is then its last call and the only failed insert. *)
Definition loop_outcome (r : Completion unit) (es : list Event) : Prop :=
  match r with
  | Normal _ => Forall (λ e, ¬ insert_failed e) es
  | Thrown err =>
      ∃ es' req,
        es = es' ++ [Remote req (Some err)]
        ∧ (req = orders_insert ∨ req = order_items_insert)
        ∧ Forall (λ e, ¬ insert_failed e) es'
  end.

(** The number that [loadCartCount] computes for a buyer: the quantities of
    the buyer's rows, added up. *)
Definition cart_count (s : Store) (buyer_id : uuid) : Z :=
  fold_left (λ sum quantity, sum + quantity)
    (map cart_quantity
       (filter (λ c, cart_buyer_id c = buyer_id) (cart_items s))) 0.

(** The catalog rows that the policies of [products] let a user read:
    the active ones and the user's own. *)
Definition visible_to (uid : uuid) (p : Product) : Prop :=
  prod_is_active p = true ∨ prod_seller_id p = uid.

(** A row of the cart view of [uid] is well joined when its product, if
    any, is a catalog row with the [product_id] of the cart row that [uid]
    may read, and is missing only if the catalog has no such row. *)
Definition well_joined (s : Store) (uid : uuid)
    (entry : CartItem * option Product) : Prop :=
  match entry.2 with
  | Some p =>
      p ∈ products s ∧ prod_id p = cart_product_id entry.1 ∧ visible_to uid p
  | None =>
      ∀ p, p ∈ products s → prod_id p = cart_product_id entry.1 →
           ¬ visible_to uid p
  end.

(** The update of a cart row by id in the session of [uid], on the rows of
    the cart table. *)
Definition with_quantity (uid : option uuid) (itemId : uuid) (quantity : Z)
    (cart : list CartItem) : list CartItem :=
  map (λ c, if decide (cart_id c = itemId ∧ uid = Some (cart_buyer_id c))
            then set_quantity quantity c else c)
      cart.

(** ** Beyond the checkout tables

    [removeItem] of [CartModal] and [handleMessageSeller] of the page issue
    calls, and touch a table, that the checkout does not.  They run in a
    [Session]: the tables above, the [chats] table, the number of remote
    calls issued so far and the chronological history of what happened;
    the handlers above run in it through [lift]. *)

(** A row of [chats]; [order_id] and [product_id] are nullable. *)
Record Chat := {
  chat_id : uuid;
  chat_order_id : option uuid;
  chat_product_id : option uuid;
  chat_buyer_id : uuid;
  chat_seller_id : uuid;
}.

Inductive Request' :=
| cart_items_delete (id : uuid)
| chats_find (buyer_id seller_id product_id : uuid)
| chats_insert (buyer_id seller_id product_id : uuid).

Inductive Step :=
| Earlier (e : Event)
| Remote' (req : Request') (error : option PostgrestError)
| SetShowChatModal (b : bool).

Record Session := {
  tables : Store;
  chats : list Chat;
  calls : nat;
  history : list Step;
}.

Definition Task (A : Type) : Type := Session → Completion A * Session.

Definition ret' {A} (a : A) : Task A := λ x, (Normal a, x).

Definition throw' {A} (e : PostgrestError) : Task A := λ x, (Thrown e, x).

Definition bind' {A B} (m : Task A) (k : A → Task B) : Task B :=
  λ x, match m x with
       | (Normal a, x1) => k a x1
       | (Thrown e, x1) => (Thrown e, x1)
       end.

Notation "x ⇐ m ; k" := (bind' m (λ x, k))
  (at level 20, m at level 100, k at level 200, only parsing).
Notation "m ;;; k" := (bind' m (λ _, k))
  (at level 100, k at level 200, right associativity, only parsing).

(** [try { body } catch (error) { handler }]. *)
Definition try_catch'
    (body : Task unit) (handler : PostgrestError → Task unit) : Task unit :=
  λ x, match body x with
       | (Normal _, x1) => (Normal tt, x1)
       | (Thrown e, x1) => handler e x1
       end.

Definition emit' (s : Step) : Task unit :=
  λ x, (Normal tt,
        {| tables := tables x; chats := chats x; calls := calls x;
           history := history x ++ [s] |}).

(** A handler of the first part, run in a session: it sees the tables and
    the call count, and what it does is appended to the history. *)
Definition lift {A} (m : Async A) : Task A :=
  λ x,
    let '(r, w) :=
      m {| store := tables x; clock := calls x; trace := [] |} in
    (r, {| tables := store w; chats := chats x; calls := clock w;
           history := history x ++ (Earlier <$> trace w) |}).

(** One awaited remote call on the session, as [remote]. *)
Definition remote' {A} (req : Request')
    (effect : Session → A * Session + PostgrestError)
    : Task (A + PostgrestError) :=
  λ x,
    let answer :=
      match failure backend (calls x) with
      | Some e => inr e
      | None => effect x
      end in
    match answer with
    | inl (a, x1) =>
        (Normal (inl a),
         {| tables := tables x1; chats := chats x1; calls := S (calls x);
            history := history x ++ [Remote' req None] |})
    | inr e =>
        (Normal (inr e),
         {| tables := tables x; chats := chats x; calls := S (calls x);
            history := history x ++ [Remote' req (Some e)] |})
    end.

(** [from('cart_items').delete().eq('id', id)].  The policy [Buyers can
    delete from own cart] ([USING (buyer_id = auth.uid())]) lets the
    statement reach only the rows of the session user: a row of another
    buyer stays, without an error. *)
Definition from_cart_items_delete (uid : option uuid) (id : uuid)
    : Task (unit + PostgrestError) :=
  remote' (cart_items_delete id) (λ x,
    inl (tt,
         {| tables :=
              {| orders := orders (tables x);
                 order_items := order_items (tables x);
                 products := products (tables x);
                 cart_items :=
                   filter (λ c, ¬ (cart_id c = id
                                   ∧ uid = Some (cart_buyer_id c)))
                          (cart_items (tables x)) |};
            chats := chats x; calls := calls x; history := history x |})).

(** The rows that [.eq('buyer_id', b).eq('seller_id', s).eq('product_id', p)]
    selects from [chats]. *)
Definition chats_of (buyer_id seller_id product_id : uuid)
    (l : list Chat) : list Chat :=
  filter (λ chat, chat_buyer_id chat = buyer_id
                  ∧ chat_seller_id chat = seller_id
                  ∧ chat_product_id chat = Some product_id) l.

(** [from('chats').select(...).eq(...).eq(...).eq(...).maybeSingle()]. *)
Definition from_chats_find (buyer_id seller_id product_id : uuid)
    : Task (option Chat + PostgrestError) :=
  remote' (chats_find buyer_id seller_id product_id) (λ x,
    match chats_of buyer_id seller_id product_id (chats x) with
    | [] => inl (None, x)
    | [chat] => inl (Some chat, x)
    | _ => inr "JSON object requested, multiple (or no) rows returned"
    end).

(** [from('chats').insert({ buyer_id, seller_id, product_id })].  The row
    gets an unused [id] and no [order_id]; the table's
    [UNIQUE(buyer_id, seller_id, order_id)] does not compare rows whose
    [order_id] is null, so it rejects no such insert. *)
Definition from_chats_insert (buyer_id seller_id product_id : uuid)
    : Task (unit + PostgrestError) :=
  remote' (chats_insert buyer_id seller_id product_id) (λ x,
    inl (tt,
         {| tables := tables x;
            chats :=
              chats x ++
              [{| chat_id := fresh (chat_id <$> chats x);
                  chat_order_id := None;
                  chat_product_id := Some product_id;
                  chat_buyer_id := buyer_id;
                  chat_seller_id := seller_id |}];
            calls := calls x; history := history x |})).

(** [CartModal]: [removeItem]. *)
Definition removeItem (user : option uuid) (itemId : uuid) : Task unit :=
  try_catch'
    (r ⇐ from_cart_items_delete user itemId;
     match r with
     | inr error => throw' error
     | inl _ => lift (loadCart user)
     end)
    (λ error, emit' (Earlier (ConsoleError "Error removing item:"))).

(** The page: [handleMessageSeller]. *)
Definition handleMessageSeller (user : option uuid) (product : Product)
    : Task unit :=
  match user with
  | None => emit' (Earlier (SetShowAuthModal true))
  | Some user_id =>
      try_catch'
        (r ⇐ from_chats_find user_id (prod_seller_id product)
               (prod_id product);
         let existingChat :=
           match r with inl data => data | inr _ => None end in
         match existingChat with
         | None =>
             r ⇐ from_chats_insert user_id (prod_seller_id product)
                    (prod_id product);
             match r with
             | inr error => throw' error
             | inl _ => ret' tt
             end
         | Some _ => ret' tt
         end;;;
         emit' (SetShowChatModal true))
        (λ error, emit' (Earlier (ConsoleError "Error creating chat:")))
  end.

(** The rows of [chats] that [handleMessageSeller] writes: no order, a
    product. *)
Definition chat_row (id buyer_id seller_id product_id : uuid) : Chat :=
  {| chat_id := id; chat_order_id := None;
     chat_product_id := Some product_id;
     chat_buyer_id := buyer_id; chat_seller_id := seller_id |}.


End Marketplace.

(** ** A concrete marketplace

    The example of the specification: buyer 7 has two cart lines, two units
    of product 1 (seller 101, price 199, stock 10) and one unit of product 2
    (seller 102, price 299, stock 5), and pays cash on delivery.  Buyer 8
    has a cart row of their own.  Ids are natural numbers and amounts are
    integers. *)
Module Scenario.

Definition buyer : nat := 7%nat.

Definition P1 : @Product nat Z :=
  {| prod_id := 1%nat; prod_seller_id := 101%nat; prod_name := "P1";
     prod_price := 199; prod_stock_quantity := 10; prod_is_active := true |}.

Definition P2 : @Product nat Z :=
  {| prod_id := 2%nat; prod_seller_id := 102%nat; prod_name := "P2";
     prod_price := 299; prod_stock_quantity := 5; prod_is_active := true |}.

Definition row1 : @CartItem nat :=
  {| cart_id := 11%nat; cart_buyer_id := 7%nat; cart_product_id := 1%nat;
     cart_quantity := 2 |}.

Definition row2 : @CartItem nat :=
  {| cart_id := 12%nat; cart_buyer_id := 7%nat; cart_product_id := 2%nat;
     cart_quantity := 1 |}.

Definition row3 : @CartItem nat :=
  {| cart_id := 13%nat; cart_buyer_id := 8%nat; cart_product_id := 1%nat;
     cart_quantity := 4 |}.

Definition line1 : @CartLine nat Z := {| line := row1; product := P1 |}.
Definition line2 : @CartLine nat Z := {| line := row2; product := P2 |}.
Definition cart : list (@CartLine nat Z) := [line1; line2].

(** Twelve units of product 1, of which the snapshot has 10 in stock: the
    stock update of this line asks for a stock of -2. *)
Definition overdrawn : @CartLine nat Z :=
  {| line := set_quantity 12 row1; product := P1 |}.

Definition form : FormData :=
  {| fullName := "A Buyer"; phone := "0000000000"; address := "1 Main St";
     city := "Pune"; state := "MH"; pincode := "411001";
     paymentMethod := "cod" |}.

Definition store0 : @Store nat Z :=
  {| orders := []; order_items := []; products := [P1; P2];
     cart_items := [row1; row2; row3] |}.

Definition world0 : @World nat Z :=
  {| store := store0; clock := 0; trace := [] |}.

(** Every call is answered. *)
Definition answering : Backend :=
  {| failure := λ _, None; orderNumber := λ _, "ORD-1-ABCDEFGHI" |}.

(** The [k]-th call of the run, counted from 0, is answered with an error;
    all others are answered. *)
Definition failing_at (k : nat) : Backend :=
  {| failure := λ n, if Nat.eqb n k then Some "error" else None;
     orderNumber := λ _, "ORD-1-ABCDEFGHI" |}.

(** The world after buyer 7 checks out [items] on backend [b]. *)
Definition after (b : Backend) (items : list (@CartLine nat Z))
    : @World nat Z :=
  (handleSubmit b (Some buyer) form items world0).2.

(** User 101, who sells product 1, has three units of it in a cart of
    their own: the one case in which the policies of the schema let the
    stock update of a checkout reach the catalog. *)
Definition seller : nat := 101%nat.

Definition row4 : @CartItem nat :=
  {| cart_id := 14%nat; cart_buyer_id := 101%nat; cart_product_id := 1%nat;
     cart_quantity := 3 |}.

Definition own_line : @CartLine nat Z := {| line := row4; product := P1 |}.

(** The same with twelve units, two more than the snapshot has in stock. *)
Definition own_overdrawn : @CartLine nat Z :=
  {| line := set_quantity 12 row4; product := P1 |}.

Definition store1 : @Store nat Z :=
  {| orders := []; order_items := []; products := [P1; P2];
     cart_items := [row1; row2; row3; row4] |}.

Definition world1 : @World nat Z :=
  {| store := store1; clock := 0; trace := [] |}.

(** Product 4 of seller 102 has been deactivated, with a unit of it still
    in the cart of buyer 7. *)
Definition P4 : @Product nat Z :=
  {| prod_id := 4%nat; prod_seller_id := 102%nat; prod_name := "P4";
     prod_price := 99; prod_stock_quantity := 20; prod_is_active := false |}.

Definition row5 : @CartItem nat :=
  {| cart_id := 15%nat; cart_buyer_id := 7%nat; cart_product_id := 4%nat;
     cart_quantity := 1 |}.

Definition store2 : @Store nat Z :=
  {| orders := []; order_items := []; products := [P1; P2; P4];
     cart_items := [row1; row5] |}.

Definition world2 : @World nat Z :=
  {| store := store2; clock := 0; trace := [] |}.

(** A product that is in no cart. *)
Definition P3 : @Product nat Z :=
  {| prod_id := 3%nat; prod_seller_id := 101%nat; prod_name := "P3";
     prod_price := 149; prod_stock_quantity := 50; prod_is_active := true |}.

(** The session of buyer 7 before any chat. *)
Definition session0 : @Session nat Z :=
  {| tables := store0; chats := []; calls := 0; history := [] |}.

(** The same with a chat of buyer 7 with seller 101 about product 1. *)
Definition session1 : @Session nat Z :=
  {| tables := store0; chats := [chat_row 21%nat 7%nat 101%nat 1%nat];
     calls := 0; history := [] |}.

End Scenario.

Section Facts.

Context {uuid : Type} `{!EqDecision uuid, !Infinite uuid}.
Context {num : Type} `{!Amount num}.

Implicit Types (items sellerItems : list (@CartLine uuid num)).
Implicit Types (acc : list (uuid * list (@CartLine uuid num))).
Implicit Types (w : @World uuid num) (es : list (@Event uuid num)).
Implicit Types (ps : list (@Product uuid num)).

(** *** The accumulator object *)

Lemma obj_get_set {V} (acc : list (uuid * V)) key v k :
  obj_get (obj_set acc key v) k
  = if decide (key = k) then Some v else obj_get acc k.
Proof.
  induction acc as [|[k0 v0] acc IH]; simpl.
  - by repeat case_decide.
  - repeat (case_decide; simpl; subst); try done.
Qed.

Lemma obj_get_None {V} (acc : list (uuid * V)) key :
  obj_get acc key = None ↔ key ∉ acc.*1.
Proof.
  induction acc as [|[k v] acc IH]; simpl.
  - split; [intros _; apply not_elem_of_nil | done].
  - rewrite not_elem_of_cons. case_decide; subst.
    + split; [done | by intros [? _]].
    + rewrite IH. split; [by split | by intros [_ ?]].
Qed.

Lemma obj_get_elem_of {V} (acc : list (uuid * V)) key v :
  NoDup acc.*1 → (key, v) ∈ acc → obj_get acc key = Some v.
Proof.
  induction acc as [|[k0 v0] acc IH]; simpl.
  - intros _ Hin. by apply elem_of_nil in Hin.
  - rewrite NoDup_cons, elem_of_cons. intros [Hk0 Hnd] [[= -> ->]|Hin].
    + by rewrite decide_True.
    + rewrite decide_False; [auto|].
      intros ->. apply Hk0. apply list_elem_of_fmap. by exists (key, v).
Qed.

Lemma obj_set_absent {V} (acc : list (uuid * V)) key v :
  obj_get acc key = None → obj_set acc key v = acc ++ [(key, v)].
Proof.
  induction acc as [|[k v'] acc IH]; simpl; [done|].
  case_decide; [done|]. intros ?. by rewrite IH.
Qed.

Lemma obj_set_present {V} (acc : list (uuid * V)) key v :
  obj_get acc key ≠ None → (obj_set acc key v).*1 = acc.*1.
Proof.
  induction acc as [|[k v''] acc IH]; simpl; [done|].
  case_decide; [done|]. intros ?. csimpl. f_equal. auto.
Qed.

Lemma obj_set_NoDup {V} (acc : list (uuid * V)) key v :
  NoDup acc.*1 → NoDup (obj_set acc key v).*1.
Proof.
  intros Hnd. destruct (obj_get acc key) as [v'|] eqn:Hget.
  - rewrite obj_set_present; [done | congruence].
  - rewrite obj_set_absent, fmap_app by done. simpl.
    apply NoDup_app. split_and!; [done | | apply NoDup_singleton].
    intros k Hk ->%list_elem_of_singleton. by apply obj_get_None in Hget.
Qed.

Lemma obj_set_concat acc key sellerItems l :
  obj_get acc key = Some sellerItems →
  concat (obj_set acc key (sellerItems ++ l)).*2 ≡ₚ concat acc.*2 ++ l.
Proof.
  induction acc as [|[k0 v0] acc IH]; simpl; [done|].
  case_decide; subst; simpl.
  - intros [= ->]. rewrite <-!(assoc_L (++)). f_equiv. apply Permutation_app_comm.
  - intros ?. rewrite IH by done. by rewrite (assoc_L (++)).
Qed.

(** *** [groupedBySeller] *)

Lemma groupedBySeller_snoc items item :
  groupedBySeller (items ++ [item])
  = groupedBySeller_step (groupedBySeller items) item.
Proof. unfold groupedBySeller. by rewrite fold_left_app. Qed.

(** The array found under a key after a step. *)
Lemma groupedBySeller_step_get acc item k :
  obj_get (groupedBySeller_step acc item) k
  = if decide (prod_seller_id (product item) = k)
    then Some (default [] (obj_get acc k) ++ [item])
    else obj_get acc k.
Proof.
  unfold groupedBySeller_step.
  destruct (obj_get acc (prod_seller_id (product item))) as [v|] eqn:Hget.
  - rewrite Hget, obj_get_set. case_decide; subst; [by rewrite Hget | done].
  - rewrite obj_get_set, decide_True by done. rewrite !obj_get_set.
    case_decide; subst; [by rewrite Hget | done].
Qed.

Lemma groupedBySeller_step_NoDup acc item :
  NoDup acc.*1 → NoDup (groupedBySeller_step acc item).*1.
Proof.
  intros Hnd. unfold groupedBySeller_step.
  repeat case_match; auto using obj_set_NoDup.
Qed.

Lemma groupedBySeller_step_concat acc item :
  concat (groupedBySeller_step acc item).*2 ≡ₚ concat acc.*2 ++ [item].
Proof.
  unfold groupedBySeller_step.
  destruct (obj_get acc (prod_seller_id (product item))) as [v|] eqn:Hget.
  - rewrite Hget. by apply obj_set_concat.
  - rewrite obj_get_set, decide_True by done.
    rewrite (obj_set_concat _ _ [] [item]) by (by rewrite obj_get_set, decide_True).
    rewrite obj_set_absent, fmap_app, concat_app by done. simpl.
    by rewrite !(right_id_L [] (++)).
Qed.

Lemma groupedBySeller_NoDup items : NoDup (groupedBySeller items).*1.
Proof.
  induction items as [|item items IH] using rev_ind; [apply NoDup_nil_2|].
  rewrite groupedBySeller_snoc. by apply groupedBySeller_step_NoDup.
Qed.

(** Under each seller id the object holds the lines of that seller, in the
    order of the input; a seller without lines has no key. *)
Lemma groupedBySeller_get items k :
  obj_get (groupedBySeller items) k
  = match filter (λ item, prod_seller_id (product item) = k) items with
    | [] => None
    | sellerItems => Some sellerItems
    end.
Proof.
  induction items as [|item items IH] using rev_ind; [done|].
  rewrite groupedBySeller_snoc, groupedBySeller_step_get, IH, filter_app.
  rewrite filter_cons, filter_nil. case_decide; simpl.
  - by destruct (filter _ items).
  - by rewrite (right_id_L [] (++)).
Qed.

Lemma groupedBySeller_elem_of items sellerId sellerItems :
  (sellerId, sellerItems) ∈ groupedBySeller items →
  sellerItems = filter (λ item, prod_seller_id (product item) = sellerId) items
  ∧ sellerItems ≠ [].
Proof.
  intros Hin. apply obj_get_elem_of in Hin; [|apply groupedBySeller_NoDup].
  rewrite groupedBySeller_get in Hin.
  destruct (filter _ items) eqn:Hf; [done|]. by injection Hin as <-.
Qed.

Lemma groupedBySeller_keys items sellerId :
  sellerId ∈ (groupedBySeller items).*1
  ↔ ∃ item, item ∈ items ∧ prod_seller_id (product item) = sellerId.
Proof.
  pose proof (groupedBySeller_get items sellerId) as Hget.
  split.
  - intros Hin.
    destruct (filter _ items) as [|item l] eqn:Hf.
    { by apply obj_get_None in Hget. }
    assert (item ∈ filter (λ item, prod_seller_id (product item) = sellerId)
                     items) as Hitem by (rewrite Hf; apply list_elem_of_here).
    apply list_elem_of_filter in Hitem as [? ?]. eauto.
  - intros (item & Hin & Hs).
    destruct (decide (sellerId ∈ (groupedBySeller items).*1)) as [|Hn]; [done|].
    apply obj_get_None in Hn. rewrite Hn in Hget.
    assert (item ∈ filter (λ item, prod_seller_id (product item) = sellerId)
                     items) as Hitem by (by apply list_elem_of_filter).
    destruct (filter _ items); [by apply elem_of_nil in Hitem | done].
Qed.

(** The groups together hold every input line exactly once. *)
Lemma groupedBySeller_concat items :
  concat (groupedBySeller items).*2 ≡ₚ items.
Proof.
  induction items as [|item items IH] using rev_ind; [done|].
  by rewrite groupedBySeller_snoc, groupedBySeller_step_concat, IH.
Qed.

(** *** Item rows and totals *)

Implicit Types (order : @Order uuid num) (created : list (@Order uuid num)).
Implicit Types (blocks : list (list (@CartLine uuid num))).

Lemma orderItems_total order sellerItems :
  sum_total_price (orderItems order sellerItems) = totalAmount sellerItems.
Proof.
  unfold sum_total_price, totalAmount. generalize (@zero num _).
  induction sellerItems as [|item sellerItems IH]; intros sum; [done|].
  simpl. apply IH.
Qed.

Lemma orderItems_filter_same order sellerItems :
  filter (λ row, item_order_id row = ord_id order)
         (orderItems order sellerItems)
  = orderItems order sellerItems.
Proof.
  induction sellerItems as [|item sellerItems IH]; [done|].
  simpl. rewrite filter_cons_True by done. by rewrite IH.
Qed.

Lemma orderItems_filter_other order order' sellerItems :
  ord_id order' ≠ ord_id order →
  filter (λ row, item_order_id row = ord_id order)
         (orderItems order' sellerItems) = [].
Proof.
  intros Hne. induction sellerItems as [|item sellerItems IH]; [done|].
  simpl. by rewrite filter_cons_False.
Qed.

Lemma orderItems_filter_others order created blocks :
  ord_id order ∉ ord_id <$> created →
  filter (λ row, item_order_id row = ord_id order)
         (concat (zip_with orderItems created blocks)) = [].
Proof.
  revert blocks. induction created as [|order' created IH];
    intros [|its blocks] Hnotin; try done.
  csimpl in *. apply not_elem_of_cons in Hnotin as [Hne Hnotin].
  rewrite filter_app, orderItems_filter_other by done. by apply IH.
Qed.

(** Among the rows written for a list of orders with distinct ids, the
    rows that carry the id of the [k]-th order are those of the [k]-th
    block. *)
Lemma orderItems_filter_lookup created blocks k order sellerItems :
  NoDup (ord_id <$> created) →
  created !! k = Some order →
  blocks !! k = Some sellerItems →
  filter (λ row, item_order_id row = ord_id order)
         (concat (zip_with orderItems created blocks))
  = orderItems order sellerItems.
Proof.
  revert blocks k.
  induction created as [|order' created IH]; intros [|its blocks] k;
    try done.
  csimpl. rewrite NoDup_cons. intros [Hnotin Hnd].
  rewrite filter_app. destruct k as [|k]; simpl.
  - intros [= ->] [= ->].
    rewrite orderItems_filter_same, orderItems_filter_others by done.
    by rewrite (right_id_L [] (++)).
  - intros Ho Hb. rewrite orderItems_filter_other; [by eapply IH|].
    intros Heq. apply Hnotin. rewrite Heq.
    apply list_elem_of_fmap. exists order. split; [done|].
    by eapply list_elem_of_lookup_2.
Qed.

(** *** Stock updates *)

Implicit Types (uid : option uuid).

Lemma stock_step_rows uid ps item :
  stock_step uid ps item = map (λ p, stock_row uid p item) ps.
Proof.
  unfold stock_step, stock_row. case_decide; [|done].
  induction ps as [|p ps IH]; [done|]. simpl. by rewrite <-IH.
Qed.

Lemma stock_steps_rows uid ps items :
  fold_left (stock_step uid) items ps
  = map (λ p, fold_left (stock_row uid) items p) ps.
Proof.
  revert ps. induction items as [|item items IH]; intros ps; simpl.
  - induction ps as [|p ps IHps]; [done|]. simpl. by rewrite <-IHps.
  - rewrite IH, stock_step_rows, map_map. done.
Qed.

(** A stock update changes the stock of a row and nothing else. *)
Lemma stock_row_stock uid (p : @Product uuid num) item :
  stock_row uid p item
  = set_stock_quantity (prod_stock_quantity (stock_row uid p item)) p.
Proof. unfold stock_row. repeat case_decide; by destruct p. Qed.

Lemma stock_rows_stock uid (p : @Product uuid num) items :
  fold_left (stock_row uid) items p
  = set_stock_quantity (prod_stock_quantity (fold_left (stock_row uid) items p))
      p.
Proof.
  induction items as [|item items IH] using rev_ind; [by destruct p|].
  rewrite fold_left_app. simpl. rewrite stock_row_stock at 1.
  rewrite IH at 2. done.
Qed.


(** A row that no line reaches stays as it is. *)
Lemma stock_rows_unreached uid (p : @Product uuid num) items :
  (∀ item, item ∈ items → ¬ reached uid p item) →
  fold_left (stock_row uid) items p = p.
Proof.
  induction items as [|item items IH] using rev_ind; [done|].
  intros Hnot. rewrite fold_left_app. simpl. rewrite IH.
  - assert (¬ reached uid p item) as Hitem
      by (apply Hnot, elem_of_app; right; apply list_elem_of_here).
    unfold stock_row, reached in *. repeat case_decide; try done.
    exfalso. apply Hitem. split_and!; [tauto..|lia].
  - intros item' Hin. apply Hnot, elem_of_app. by left.
Qed.

(** With one line per product, a row that a line reaches ends with the
    snapshot stock of that line less its quantity. *)
Lemma stock_rows_reached uid (p : @Product uuid num) items item :
  NoDup (cart_product_id ∘ line <$> items) →
  item ∈ items →
  reached uid p item →
  fold_left (stock_row uid) items p
  = set_stock_quantity
      (prod_stock_quantity (product item) - cart_quantity (line item)) p.
Proof.
  induction items as [|last items IH] using rev_ind.
  { intros _ Hin. by apply elem_of_nil in Hin. }
  rewrite fmap_app, fold_left_app. simpl.
  intros [Hnd [Hdisj _]]%NoDup_app Hin Hreached.
  apply elem_of_app in Hin as [Hin| ->%list_elem_of_singleton].
  - rewrite IH by done. unfold stock_row. case_decide; [done|]. simpl.
    rewrite decide_False; [done|]. intros [Hid _].
    apply (Hdisj (cart_product_id (line item))).
    + apply list_elem_of_fmap. by exists item.
    + destruct Hreached as (Hp & _). rewrite <-Hp, Hid.
      apply list_elem_of_here.
  - rewrite stock_rows_stock. destruct Hreached as (Hid & Hown & Hge).
    unfold stock_row. rewrite decide_False by lia. simpl.
    rewrite decide_True by done. by destruct p.
Qed.


(** *** Runs of the checkout *)

Context (backend : Backend).

Lemma for_of_cons {A} (x : A) l (body : A → @Async uuid num unit) w :
  for_of (x :: l) body w
  = match body x w with
    | (Normal _, w1) => for_of l body w1
    | (Thrown e, w1) => (Thrown e, w1)
    end.
Proof. done. Qed.

(** One stock update: whatever is answered, the call returns; it is
    recorded with its answer, and the catalog is the only table it can
    change. *)
Lemma from_products_update_run uid item w :
  ∃ r answer,
    from_products_update backend uid
      (prod_stock_quantity (product item) - cart_quantity (line item))
      (cart_product_id (line item)) w
    = (Normal r,
       {| store :=
            {| orders := orders (store w);
               order_items := order_items (store w);
               products :=
                 match failure backend (clock w) with
                 | Some _ => products (store w)
                 | None => stock_step uid (products (store w)) item
                 end;
               cart_items := cart_items (store w) |};
          clock := S (clock w);
          trace := trace w ++ [Remote (stock_request item) answer] |}).
Proof.
  unfold from_products_update, remote, stock_step.
  destruct (failure backend (clock w)) as [e|]; simpl.
  { eexists _, _. by destruct w as [[] ? ?]. }
  case_decide as Hcheck; simpl.
  - destruct Hcheck as [Hneg _]. rewrite decide_True by done.
    eexists _, _. by destruct w as [[] ? ?].
  - eexists _, _. do 3 f_equal. case_decide as Hneg; [|done].
    rewrite <-(map_id (products (store w))) at 2.
    apply map_ext_in. intros p Hp%list_elem_of_In.
    rewrite decide_False; [done|]. intros Hown. apply Hcheck.
    split; [done|]. apply Exists_exists. eauto.
Qed.

Local Abbreviation stock_loop uid sellerItems :=
  (for_of sellerItems (λ item : @CartLine uuid num,
     bind (from_products_update backend uid
             (prod_stock_quantity (product item) - cart_quantity (line item))
             (cart_product_id (line item)))
          (λ _, ret tt))).

(** On a reliable backend the stock loop leaves the catalog as the store
    computes it line by line, and records one request per line, in the
    order of the lines. *)
Lemma stock_loop_reliable uid sellerItems w :
  reliable backend →
  ∃ es,
    stock_loop uid sellerItems w
    = (Normal tt,
       {| store :=
            {| orders := orders (store w);
               order_items := order_items (store w);
               products :=
                 fold_left (stock_step uid) sellerItems (products (store w));
               cart_items := cart_items (store w) |};
          clock := length sellerItems + clock w;
          trace := trace w ++ es |})
    ∧ Forall2 (λ e item, ∃ answer, e = Remote (stock_request item) answer)
              es sellerItems.
Proof.
  intros Hrel. revert w.
  induction sellerItems as [|item sellerItems IH]; intros w.
  - exists []. destruct w as [[] ? ?]. simpl.
    rewrite (right_id_L [] (++)). by split; [|constructor].
  - rewrite for_of_cons. unfold bind at 1.
    destruct (from_products_update_run uid item w) as (r & answer & ->).
    rewrite Hrel. unfold ret at 1.
    destruct (IH {| store :=
                      {| orders := orders (store w);
                         order_items := order_items (store w);
                         products := stock_step uid (products (store w)) item;
                         cart_items := cart_items (store w) |};
                    clock := S (clock w);
                    trace := trace w ++ [Remote (stock_request item) answer] |})
      as (es & -> & Hes).
    exists (Remote (stock_request item) answer :: es). simpl.
    rewrite <-(assoc_L (++)), Nat.add_succ_r.
    split; [done|]. constructor; [by exists answer | done].
Qed.

(** Whatever the backend answers, the stock loop completes normally and
    touches nothing but the catalog. *)
Lemma stock_loop_frame uid sellerItems w :
  ∃ ps es,
    stock_loop uid sellerItems w
    = (Normal tt,
       {| store :=
            {| orders := orders (store w);
               order_items := order_items (store w);
               products := ps;
               cart_items := cart_items (store w) |};
          clock := length sellerItems + clock w;
          trace := trace w ++ es |})
    ∧ Forall checkout_call es.
Proof.
  revert w. induction sellerItems as [|item sellerItems IH]; intros w.
  - exists (products (store w)), []. destruct w as [[] ? ?]. simpl.
    by rewrite (right_id_L [] (++)).
  - rewrite for_of_cons. unfold bind at 1.
    destruct (from_products_update_run uid item w) as (r & answer & ->).
    unfold ret at 1.
    edestruct IH as (ps & es & -> & Hes). simpl.
    eexists _, (_ :: es). rewrite <-(assoc_L (++)), Nat.add_succ_r.
    split; [done|]. by constructor.
Qed.

Section one_seller.

Context (user_id : uuid) (formData : FormData).
Context (sellerId : uuid) (sellerItems : list (@CartLine uuid num)).
Context (w : @World uuid num).

Local Abbreviation order :=
  (next_order backend user_id formData sellerId sellerItems w).

(** The order insert fails: the error is thrown and nothing is stored. *)
Lemma handleSubmit_seller_order_error e :
  failure backend (clock w) = Some e →
  handleSubmit_seller backend user_id formData (sellerId, sellerItems) w
  = (Thrown e,
     {| store := store w;
        clock := S (clock w);
        trace := trace w ++ [Remote orders_insert (Some e)] |}).
Proof.
  intros He. unfold handleSubmit_seller, bind, draw_order_number,
    from_orders_insert, remote. simpl. by rewrite He.
Qed.

(** The item insert fails: the error is thrown and the order stays. *)
Lemma handleSubmit_seller_items_error e :
  failure backend (clock w) = None →
  failure backend (S (clock w)) = Some e →
  handleSubmit_seller backend user_id formData (sellerId, sellerItems) w
  = (Thrown e,
     {| store :=
          {| orders := orders (store w) ++ [order];
             order_items := order_items (store w);
             products := products (store w);
             cart_items := cart_items (store w) |};
        clock := S (S (clock w));
        trace :=
          trace w ++ [Remote orders_insert None;
                      Remote order_items_insert (Some e)] |}).
Proof.
  intros Ho He. unfold handleSubmit_seller, bind, draw_order_number,
    from_orders_insert, from_order_items_insert, remote. simpl.
  rewrite Ho. simpl. rewrite He. simpl. by rewrite <-(assoc_L (++)).
Qed.

(** Both inserts succeed: the group is processed to its end, whatever the
    stock updates answer. *)
Lemma handleSubmit_seller_inserted :
  failure backend (clock w) = None →
  failure backend (S (clock w)) = None →
  ∃ ps es,
    handleSubmit_seller backend user_id formData (sellerId, sellerItems) w
    = (Normal tt,
       {| store :=
            {| orders := orders (store w) ++ [order];
               order_items :=
                 order_items (store w) ++ orderItems order sellerItems;
               products := ps;
               cart_items := cart_items (store w) |};
          clock := length sellerItems + S (S (clock w));
          trace := trace w ++ es |})
    ∧ Forall checkout_call es.
Proof.
  intros Ho Hi. unfold handleSubmit_seller, bind, draw_order_number,
    from_orders_insert, from_order_items_insert, remote. simpl.
  rewrite Ho. simpl. rewrite Hi. simpl.
  edestruct (stock_loop_frame (Some user_id)) as (ps & es & -> & Hes). simpl.
  eexists ps, (_ :: _ :: es). rewrite <-!(assoc_L (++)).
  split; [done|]. by repeat constructor.
Qed.

(** On a reliable backend the result is known up to the answers to the
    stock updates. *)
Lemma handleSubmit_seller_reliable :
  reliable backend →
  ∃ es,
    handleSubmit_seller backend user_id formData (sellerId, sellerItems) w
    = (Normal tt,
       {| store :=
            {| orders := orders (store w) ++ [order];
               order_items :=
                 order_items (store w) ++ orderItems order sellerItems;
               products :=
                 fold_left (stock_step (Some user_id)) sellerItems
                           (products (store w));
               cart_items := cart_items (store w) |};
          clock := length sellerItems + S (S (clock w));
          trace :=
            trace w ++ Remote orders_insert None
                    :: Remote order_items_insert None :: es |})
    ∧ Forall2 (λ e item, ∃ answer, e = Remote (stock_request item) answer)
              es sellerItems.
Proof.
  intros Hrel. unfold handleSubmit_seller, bind, draw_order_number,
    from_orders_insert, from_order_items_insert, remote. simpl.
  rewrite !Hrel. simpl.
  edestruct (stock_loop_reliable (Some user_id)) as (es & -> & Hes); [done|].
  exists es. simpl. by rewrite <-!(assoc_L (++)).
Qed.

End one_seller.

Section all_sellers.

Context (user_id : uuid) (formData : FormData).

(** Whatever the backend answers, the loop over the groups only appends
    rows to [orders] and [order_items], each built from one of the groups,
    and leaves the cart alone. *)
Lemma sellers_loop_frame (groups : list (uuid * list (@CartLine uuid num))) w :
  ∃ r created new_items ps n es,
    for_of groups (handleSubmit_seller backend user_id formData) w
    = (r,
       {| store :=
            {| orders := orders (store w) ++ created;
               order_items := order_items (store w) ++ new_items;
               products := ps;
               cart_items := cart_items (store w) |};
          clock := n;
          trace := trace w ++ es |})
    ∧ Forall checkout_call es
    ∧ Forall (λ order, ∃ sellerId sellerItems number id,
                (sellerId, sellerItems) ∈ groups
                ∧ order = order_row user_id formData sellerId sellerItems
                            number id) created
    ∧ Forall (λ row, ∃ order sellerId sellerItems,
                (sellerId, sellerItems) ∈ groups
                ∧ row ∈ orderItems order sellerItems) new_items.
Proof.
  revert w. induction groups as [|[sellerId sellerItems] groups IH]; intros w.
  - exists (Normal tt), [], [], (products (store w)), (clock w), [].
    destruct w as [[] ? ?]. simpl. by rewrite !(right_id_L [] (++)).
  - rewrite for_of_cons.
    destruct (failure backend (clock w)) as [e|] eqn:Ho.
    { rewrite (handleSubmit_seller_order_error _ _ _ _ _ e) by done.
      eexists (Thrown e), [], [], (products (store w)), (S (clock w)), [_].
      destruct w as [[] ? ?]. simpl. rewrite !(right_id_L [] (++)).
      split_and!; by repeat constructor. }
    destruct (failure backend (S (clock w))) as [e|] eqn:Hi.
    { rewrite (handleSubmit_seller_items_error _ _ _ _ _ e) by done.
      eexists (Thrown e), [_], [], (products (store w)), _, [_; _].
      rewrite !(right_id_L [] (++)).
      split_and!; [done | by repeat constructor | | constructor].
      constructor; [|constructor].
      eexists _, _, _, _. split; [apply list_elem_of_here | done]. }
    edestruct (handleSubmit_seller_inserted user_id formData sellerId
                 sellerItems w) as (ps & es & -> & Hes); [done..|].
    edestruct IH as (r & created & new_items & ps' & n & es' & -> & Hes'
                     & Hcreated & Hnew). simpl.
    set (order := next_order backend user_id formData sellerId sellerItems w).
    exists r, (order :: created), (orderItems order sellerItems ++ new_items),
      ps', n, (es ++ es').
    split_and!; [by rewrite <-!(assoc_L (++)) | by apply Forall_app | |].
    + constructor.
      * eexists _, _, _, _. split; [apply list_elem_of_here | done].
      * eapply Forall_impl; [exact Hcreated|]. simpl.
        intros o (sid & its & number & id & Hin & ->).
        eexists _, _, _, _. split; [by apply list_elem_of_further | done].
    + apply Forall_app. split.
      * apply Forall_forall. intros row Hrow.
        eexists _, _, _. split; [apply list_elem_of_here | exact Hrow].
      * eapply Forall_impl; [exact Hnew|]. simpl.
        intros row (o & sid & its & Hin & Hrow).
        eexists _, _, _. split; [by apply list_elem_of_further | done].
Qed.

(** On a reliable backend every group is processed: one order per group, in
    the order of the groups, each with the item rows of its group; the ids
    of the new orders are new and pairwise distinct. *)
Lemma sellers_loop_reliable (groups : list (uuid * list (@CartLine uuid num))) w :
  reliable backend →
  ∃ created n es,
    for_of groups (handleSubmit_seller backend user_id formData) w
    = (Normal tt,
       {| store :=
            {| orders := orders (store w) ++ created;
               order_items :=
                 order_items (store w)
                 ++ concat (zip_with orderItems created groups.*2);
               products :=
                 fold_left (stock_step (Some user_id)) (concat groups.*2)
                           (products (store w));
               cart_items := cart_items (store w) |};
          clock := n;
          trace := trace w ++ es |})
    ∧ Forall checkout_call es
    ∧ (∀ item, item ∈ concat groups.*2 →
         ∃ answer, Remote (stock_request item) answer ∈ es)
    ∧ Forall2 (λ order entry, ∃ number id,
                 order = order_row user_id formData entry.1 entry.2 number id)
              created groups
    ∧ NoDup (ord_id <$> created)
    ∧ Forall (λ order, ord_id order ∉ ord_id <$> orders (store w)) created.
Proof.
  intros Hrel. revert w.
  induction groups as [|[sellerId sellerItems] groups IH]; intros w.
  - exists [], (clock w), []. destruct w as [[] ? ?]. simpl.
    rewrite !(right_id_L [] (++)).
    split_and!; [done | constructor | | constructor.. ].
    intros item Hin. by apply elem_of_nil in Hin.
  - rewrite for_of_cons.
    destruct (handleSubmit_seller_reliable user_id formData sellerId
                sellerItems w Hrel) as (es1 & -> & Hes1).
    edestruct IH as (created & n & es & -> & Hes & Hreq & Hcreated & Hnd
                     & Hfresh).
    simpl in *.
    set (order := next_order backend user_id formData sellerId sellerItems w)
      in *.
    exists (order :: created), n,
      (Remote orders_insert None :: Remote order_items_insert None
       :: es1 ++ es).
    split_and!.
    { by rewrite fold_left_app, <-!(assoc_L (++)). }
    + repeat constructor. apply Forall_app. split; [|done].
      apply Forall_forall. intros e He.
      apply (list_elem_of_lookup_1 es1) in He as [i Hi].
      destruct (Forall2_lookup_l _ _ _ _ _ Hes1 Hi) as (item & _ & a & ->).
      done.
    + intros item [Hin|Hin]%elem_of_app.
      * apply list_elem_of_lookup_1 in Hin as [i Hi].
        destruct (Forall2_lookup_r _ _ _ _ _ Hes1 Hi) as (e & He & a & ->).
        exists a. do 2 apply list_elem_of_further. apply elem_of_app. left.
        by eapply list_elem_of_lookup_2.
      * destruct (Hreq item Hin) as (a & Ha). exists a.
        do 2 apply list_elem_of_further. apply elem_of_app. by right.
    + constructor; [by eexists _, _|done].
    + csimpl. apply NoDup_cons. split; [|done].
      intros (order' & Hid & Hin)%list_elem_of_fmap.
      rewrite Forall_forall in Hfresh. apply (Hfresh _ Hin).
      rewrite fmap_app, elem_of_app. right. rewrite <-Hid.
      apply list_elem_of_here.
    + constructor.
      * apply infinite_is_fresh.
      * eapply Forall_impl; [exact Hfresh|]. simpl. intros order' Hn Hin.
        apply Hn. rewrite fmap_app, elem_of_app. by left.
Qed.

(** How far the loop gets on any backend.  It stores the order and the
    item rows of the first groups, one after the other; it may then meet
    an insert that fails.  If that is the insert of the item rows of the
    next group, the order of that group has been stored and stays, without
    rows. *)
Lemma sellers_loop_rows (groups : list (uuid * list (@CartLine uuid num))) w :
  ∃ r stored unfinished ps n es,
    for_of groups (handleSubmit_seller backend user_id formData) w
    = (r,
       {| store :=
            {| orders := orders (store w) ++ stored ++ unfinished;
               order_items :=
                 order_items (store w)
                 ++ concat (zip_with orderItems stored groups.*2);
               products := ps;
               cart_items := cart_items (store w) |};
          clock := n;
          trace := trace w ++ es |})
    ∧ Forall2 (λ order entry, ∃ number id,
                 order = order_row user_id formData entry.1 entry.2 number id)
              stored (take (length stored) groups)
    ∧ NoDup (ord_id <$> stored ++ unfinished)
    ∧ Forall (λ order, ord_id order ∉ ord_id <$> orders (store w))
             (stored ++ unfinished)
    ∧ match unfinished with
      | [] => True
      | [order] =>
          ∃ err sellerId sellerItems number id,
            (sellerId, sellerItems) ∈ groups
            ∧ order = order_row user_id formData sellerId sellerItems number id
            ∧ Remote order_items_insert (Some err) ∈ es
      | _ => False
      end.
Proof.
  revert w. induction groups as [|[sellerId sellerItems] groups IH]; intros w.
  - exists (Normal tt), [], [], (products (store w)), (clock w), [].
    destruct w as [[] ? ?]. simpl. rewrite !(right_id_L [] (++)).
    split_and!; [done | constructor | constructor | constructor | done].
  - rewrite for_of_cons.
    destruct (failure backend (clock w)) as [e|] eqn:Ho.
    { rewrite (handleSubmit_seller_order_error _ _ _ _ _ e) by done.
      exists (Thrown e), [], [], (products (store w)), (S (clock w)),
        [Remote orders_insert (Some e)].
      destruct w as [[] ? ?]. simpl. rewrite !(right_id_L [] (++)).
      split_and!; [done | constructor | constructor | constructor | done]. }
    set (order := next_order backend user_id formData sellerId sellerItems w).
    assert (ord_id order ∉ ord_id <$> orders (store w)) as Hnew
      by apply infinite_is_fresh.
    destruct (failure backend (S (clock w))) as [e|] eqn:Hi.
    { rewrite (handleSubmit_seller_items_error _ _ _ _ _ e) by done.
      exists (Thrown e), [], [order], (products (store w)), (S (S (clock w))),
        [Remote orders_insert None; Remote order_items_insert (Some e)].
      simpl. rewrite !(right_id_L [] (++)).
      split_and!; [done | constructor | apply NoDup_singleton
                   | by constructor |].
      exists e, sellerId, sellerItems. eexists _, _.
      split_and!; [apply list_elem_of_here | done |].
      apply list_elem_of_further, list_elem_of_here. }
    edestruct (handleSubmit_seller_inserted user_id formData sellerId
                 sellerItems w) as (ps & es & -> & Hes); [done..|].
    edestruct IH as (r & stored & unfinished & ps' & n & es' & -> & Hstored
                     & Hnd & Hfresh & Hlast).
    simpl in *. fold order in Hnd, Hfresh |- *.
    exists r, (order :: stored), unfinished, ps', n, (es ++ es').
    split_and!.
    + by rewrite <-!(assoc_L (++)).
    + simpl. constructor; [by eexists _, _ | done].
    + csimpl. apply NoDup_cons. split; [|done].
      intros (order' & Hid & Hin)%list_elem_of_fmap.
      rewrite Forall_forall in Hfresh. apply (Hfresh _ Hin).
      rewrite fmap_app, elem_of_app. right. rewrite <-Hid.
      apply list_elem_of_here.
    + simpl. constructor; [done|].
      eapply Forall_impl; [exact Hfresh|]. simpl. intros order' Hn Hin.
      apply Hn. rewrite fmap_app, elem_of_app. by left.
    + destruct unfinished as [|order' [|? ?]]; [done| |done].
      destruct Hlast as (err & sid & its & number & id & Hin & -> & Herr).
      exists err, sid, its, number, id.
      split_and!; [by apply list_elem_of_further | done |].
      apply elem_of_app. by right.
Qed.

End all_sellers.

(** *** [handleSubmit] as a whole *)

Section whole.

Context (user_id : uuid) (formData : FormData).
Context (items : list (@CartLine uuid num)) (w : @World uuid num).


(** The loop completes: the cart delete is issued, its answer is ignored,
    and success is signalled. *)
Lemma handleSubmit_completed w1 :
  for_of (groupedBySeller items) (handleSubmit_seller backend user_id formData)
    (loading w) = (Normal tt, w1) →
  handleSubmit backend (Some user_id) formData items w
  = (Normal tt,
     {| store :=
          match failure backend (clock w1) with
          | Some _ => store w1
          | None =>
              {| orders := orders (store w1);
                 order_items := order_items (store w1);
                 products := products (store w1);
                 cart_items :=
                   filter (λ c, cart_buyer_id c ≠ user_id)
                          (cart_items (store w1)) |}
          end;
        clock := S (clock w1);
        trace :=
          trace w1 ++ [Remote (cart_items_delete_buyer user_id)
                              (failure backend (clock w1));
                       OnSuccess; OnClose; SetLoading false] |}).
Proof.
  intros Hloop. unfold handleSubmit, try_catch_finally, bind at 1, emit at 1.
  fold (loading w). unfold bind at 1. rewrite Hloop.
  unfold bind, from_cart_items_delete_buyer, remote, emit. simpl.
  destruct (failure backend (clock w1)); simpl;
    by rewrite <-!(assoc_L (++)).
Qed.

(** The loop throws: the error is logged, one alert is shown, and neither
    the cart delete nor the success callbacks are reached. *)
Lemma handleSubmit_thrown e w1 :
  for_of (groupedBySeller items) (handleSubmit_seller backend user_id formData)
    (loading w) = (Thrown e, w1) →
  handleSubmit backend (Some user_id) formData items w
  = (Normal tt,
     {| store := store w1;
        clock := clock w1;
        trace :=
          trace w1 ++ [ConsoleError "Error creating order:";
                       Alert "Failed to create order. Please try again.";
                       SetLoading false] |}).
Proof.
  intros Hloop. unfold handleSubmit, try_catch_finally, bind at 1, emit at 1.
  fold (loading w). unfold bind at 1. rewrite Hloop.
  unfold bind, emit. simpl. by rewrite <-!(assoc_L (++)).
Qed.

End whole.

Lemma items_of_fresh (s : @Store uuid num) order :
  referential s →
  ord_id order ∉ ord_id <$> orders s →
  filter (λ row, item_order_id row = ord_id order) (order_items s) = [].
Proof.
  intros Href Hfresh. apply elem_of_nil_inv. intros row.
  rewrite list_elem_of_filter. intros [Hid Hrow].
  apply Hfresh. rewrite <-Hid. by apply Href.
Qed.

(** Whatever the backend answers, a run of [handleSubmit] only appends to
    [orders] and [order_items], and every appended row is built from one of
    the seller groups. *)
Lemma handleSubmit_frame user formData (items : list (@CartLine uuid num)) w :
  ∃ created new_rows,
    orders (store (handleSubmit backend user formData items w).2)
    = orders (store w) ++ created
    ∧ order_items (store (handleSubmit backend user formData items w).2)
      = order_items (store w) ++ new_rows
    ∧ Forall (λ order, ∃ user_id sellerId sellerItems number id,
                (sellerId, sellerItems) ∈ groupedBySeller items
                ∧ order = order_row user_id formData sellerId sellerItems
                            number id) created
    ∧ Forall (λ row, ∃ order sellerId sellerItems,
                (sellerId, sellerItems) ∈ groupedBySeller items
                ∧ row ∈ orderItems order sellerItems) new_rows.
Proof.
  destruct user as [user_id|].
  2:{ exists [], []. simpl. by rewrite !(right_id_L [] (++)). }
  edestruct (sellers_loop_frame user_id formData (groupedBySeller items))
    as (r & created & new_rows & ps & n & es & Hloop & _ & Hcreated & Hnew).
  exists created, new_rows. destruct r as [[]|e].
  - erewrite handleSubmit_completed by exact Hloop. simpl.
    split_and!; [by destruct (failure backend n).. | |done].
    eapply Forall_impl; [exact Hcreated|]. simpl.
    intros order (? & ? & ? & ? & ? & ?). by eexists _, _, _, _, _.
  - erewrite handleSubmit_thrown by exact Hloop. simpl.
    split_and!; [done.. | |done].
    eapply Forall_impl; [exact Hcreated|]. simpl.
    intros order (? & ? & ? & ? & ? & ?). by eexists _, _, _, _, _.
Qed.

(** On a reliable backend the run is known up to the new order ids. *)
Lemma handleSubmit_reliable user_id formData
    (items : list (@CartLine uuid num)) w :
  reliable backend →
  ∃ created n es,
    handleSubmit backend (Some user_id) formData items w
    = (Normal tt,
       {| store :=
            {| orders := orders (store w) ++ created;
               order_items :=
                 order_items (store w)
                 ++ concat (zip_with orderItems created
                              (groupedBySeller items).*2);
               products :=
                 fold_left (stock_step (Some user_id))
                           (concat (groupedBySeller items).*2)
                           (products (store w));
               cart_items :=
                 filter (λ c, cart_buyer_id c ≠ user_id)
                        (cart_items (store w)) |};
          clock := n;
          trace :=
            trace w ++ SetLoading true
                    :: es ++ [Remote (cart_items_delete_buyer user_id) None;
                              OnSuccess; OnClose; SetLoading false] |})
    ∧ Forall checkout_call es
    ∧ (∀ item, item ∈ items →
         ∃ answer, Remote (stock_request item) answer ∈ es)
    ∧ Forall2 (λ order entry, ∃ number id,
                 order = order_row user_id formData entry.1 entry.2 number id)
              created (groupedBySeller items)
    ∧ NoDup (ord_id <$> created)
    ∧ Forall (λ order, ord_id order ∉ ord_id <$> orders (store w)) created.
Proof.
  intros Hrel.
  edestruct (sellers_loop_reliable user_id formData (groupedBySeller items))
    as (created & n & es & Hloop & Hes & Hreq & Hcreated & Hnd & Hfresh);
    [done|].
  exists created, (S n), es.
  erewrite handleSubmit_completed by exact Hloop. simpl.
  rewrite Hrel. simpl. rewrite <-!(assoc_L (++)).
  split_and!; [done..| |done|done|done].
  intros item Hin. apply Hreq. by rewrite groupedBySeller_concat.
Qed.


(** How far a run for a signed-in user gets, on any backend: the orders
    stored together with their item rows, each with the rows of its group,
    and at most one more order, stored without rows when the insert of its
    rows was answered with an error. *)
Lemma handleSubmit_rows user_id formData
    (items : list (@CartLine uuid num)) w :
  ∃ stored unfinished,
    orders (store (handleSubmit backend (Some user_id) formData items w).2)
    = orders (store w) ++ stored ++ unfinished
    ∧ order_items
        (store (handleSubmit backend (Some user_id) formData items w).2)
      = order_items (store w)
        ++ concat (zip_with orderItems stored (groupedBySeller items).*2)
    ∧ Forall2 (λ order entry, ∃ number id,
                 order = order_row user_id formData entry.1 entry.2 number id)
              stored (take (length stored) (groupedBySeller items))
    ∧ NoDup (ord_id <$> stored ++ unfinished)
    ∧ Forall (λ order, ord_id order ∉ ord_id <$> orders (store w))
             (stored ++ unfinished)
    ∧ match unfinished with
      | [] => True
      | [order] =>
          ∃ err sellerId sellerItems number id,
            (sellerId, sellerItems) ∈ groupedBySeller items
            ∧ order = order_row user_id formData sellerId sellerItems number id
            ∧ Remote order_items_insert (Some err)
              ∈ new_events w
                  (handleSubmit backend (Some user_id) formData items w).2
      | _ => False
      end.
Proof.
  destruct (sellers_loop_rows user_id formData (groupedBySeller items)
              (loading w))
    as (r & stored & unfinished & ps & n & es & Hloop & Hstored & Hnd
        & Hfresh & Hlast).
  exists stored, unfinished. simpl in Hloop.
  assert (∀ tail,
            new_events w
              {| store := store w; clock := clock w;
                 trace := ((trace w ++ [SetLoading true]) ++ es) ++ tail |}
            = SetLoading true :: es ++ tail) as Hnew.
  { intros tail. unfold new_events. simpl.
    by rewrite <-!(assoc_L (++)), drop_app_length. }
  destruct r as [[]|e].
  - rewrite (handleSubmit_completed _ _ _ _ _ Hloop). simpl.
    split_and!; [by destruct (failure backend n).. |done|done|done|].
    destruct unfinished as [|order [|? ?]]; [done| |done].
    destruct Hlast as (err & sid & its & number & id & Hin & -> & Herr).
    exists err, sid, its, number, id. split_and!; [done..|].
    unfold new_events in *. simpl in *.
    rewrite <-!(assoc_L (++)), drop_app_length.
    apply list_elem_of_further, elem_of_app. by left.
  - rewrite (handleSubmit_thrown _ _ _ _ _ _ Hloop). simpl.
    split_and!; [done..|].
    destruct unfinished as [|order [|? ?]]; [done| |done].
    destruct Hlast as (err & sid & its & number & id & Hin & -> & Herr).
    exists err, sid, its, number, id. split_and!; [done..|].
    unfold new_events in *. simpl in *.
    rewrite <-!(assoc_L (++)), drop_app_length.
    apply list_elem_of_further, elem_of_app. by left.
Qed.

(** ** The checkout properties *)

(** C1 (grouping correctness).  The grouping has exactly one group per
    seller id that occurs in the input, and the group of a seller is the
    subsequence of the input lines of that seller.  On a backend that
    answers every call, the orchestrator creates exactly one order per
    group, in the order of the groups, and the stored line items of that
    order are the item rows of the lines of its group. *)
Theorem checkout_one_order_per_seller user_id formData
    (items : list (@CartLine uuid num)) w :
  reliable backend →
  referential (store w) →
  NoDup (groupedBySeller items).*1
  ∧ (∀ sellerId,
       sellerId ∈ (groupedBySeller items).*1
       ↔ ∃ item, item ∈ items ∧ prod_seller_id (product item) = sellerId)
  ∧ (∀ sellerId sellerItems,
       (sellerId, sellerItems) ∈ groupedBySeller items →
       sellerItems
       = filter (λ item, prod_seller_id (product item) = sellerId) items)
  ∧ ∃ created,
      orders (store (handleSubmit backend (Some user_id) formData items w).2)
      = orders (store w) ++ created
      ∧ Forall2
          (λ order entry,
             ord_seller_id order = entry.1
             ∧ items_of
                 (store (handleSubmit backend (Some user_id) formData items w).2)
                 order
               = orderItems order entry.2)
          created (groupedBySeller items).
Proof.
  intros Hrel Href.
  split_and!; [apply groupedBySeller_NoDup | apply groupedBySeller_keys | |].
  { intros ? ? Hin. by apply groupedBySeller_elem_of in Hin as [? _]. }
  destruct (handleSubmit_reliable user_id formData items w Hrel)
    as (created & n & es & -> & _ & _ & Hcreated & Hnd & Hfresh).
  exists created. split; [done|].
  apply Forall2_same_length_lookup_2; [by eapply Forall2_length|].
  intros k order entry Ho He.
  destruct (Forall2_lookup_lr _ _ _ _ _ _ Hcreated Ho He)
    as (number & id & Horder).
  split; [by rewrite Horder|].
  unfold items_of. simpl. rewrite filter_app, items_of_fresh; [|done|].
  - apply (orderItems_filter_lookup _ _ k); [done..|].
    by rewrite list_lookup_fmap, He.
  - rewrite Forall_forall in Hfresh. apply Hfresh.
    by eapply list_elem_of_lookup_2.
Qed.

(** C2 (amount invariant), amended.  In every run that starts from a
    store whose item rows belong to stored orders, every item row that the
    checkout stores has [total_price = price_per_unit * quantity], with the
    price, product and quantity of one of the cart lines; and every order
    that it stores has a [total_amount] equal to the sum of the
    [total_price] of its rows in [order_items], except for an order whose
    item insert was answered with an error: that order is the last one
    stored, it stays, and it has no row.  When every call is answered there
    is no such order. *)
Theorem checkout_amounts user formData (items : list (@CartLine uuid num)) w :
  referential (store w) →
  ∃ created new_rows,
    orders (store (handleSubmit backend user formData items w).2)
    = orders (store w) ++ created
    ∧ order_items (store (handleSubmit backend user formData items w).2)
      = order_items (store w) ++ new_rows
    ∧ Forall (λ row,
                item_total_price row
                = times (item_price_per_unit row) (item_quantity row)
                ∧ ∃ item, item ∈ items
                    ∧ item_price_per_unit row = prod_price (product item)
                    ∧ item_product_id row = cart_product_id (line item)
                    ∧ item_quantity row = cart_quantity (line item))
             new_rows
    ∧ Forall (λ order,
                ord_total_amount order
                = sum_total_price
                    (items_of
                       (store (handleSubmit backend user formData items w).2)
                       order)
                ∨ (last created = Some order
                   ∧ items_of
                       (store (handleSubmit backend user formData items w).2)
                       order = []
                   ∧ ∃ err,
                       Remote order_items_insert (Some err)
                       ∈ new_events w
                           (handleSubmit backend user formData items w).2))
             created
    ∧ (reliable backend →
       Forall (λ order,
                 ord_total_amount order
                 = sum_total_price
                     (items_of
                        (store (handleSubmit backend user formData items w).2)
                        order))
              created).
Proof.
  intros Href.
  destruct (handleSubmit_frame user formData items w)
    as (created & new_rows & Horders & Hrows & Hbuilt & Hnew).
  exists created, new_rows. split_and!; [done..| | |].
  - eapply Forall_impl; [exact Hnew|]. simpl.
    intros row (order & sellerId & sellerItems & Hin & Hrow).
    apply groupedBySeller_elem_of in Hin as [-> _].
    unfold orderItems in Hrow.
    apply list_elem_of_fmap in Hrow as (item & -> & Hitem).
    apply list_elem_of_filter in Hitem as [_ Hitem]. simpl. eauto 10.
  - destruct user as [user_id|].
    2:{ simpl in Horders. rewrite <-(right_id_L [] (++) (orders (store w)))
          in Horders at 1. apply (inj (app _)) in Horders as <-.
        constructor. }
    destruct (handleSubmit_rows user_id formData items w)
      as (stored & unfinished & Ho & Hi & Hstored & Hnd & Hfresh & Hlast).
    rewrite Ho in Horders. apply (inj (app _)) in Horders as <-.
    rewrite fmap_app in Hnd. apply NoDup_app in Hnd as (Hnd & Hdisj & _).
    apply Forall_app in Hfresh as [Hfresh Hfresh'].
    unfold items_of. rewrite Hi.
    apply Forall_app. split.
    + apply Forall_lookup. intros k order Hk. left.
      destruct (Forall2_lookup_l _ _ _ _ _ Hstored Hk)
        as (entry & He & number & id & Horder).
      apply lookup_take_Some in He as [He _].
      rewrite filter_app, items_of_fresh; [|done|].
      * rewrite (orderItems_filter_lookup _ _ k _ entry.2); [|done..|].
        -- simpl. rewrite orderItems_total. by rewrite Horder.
        -- by rewrite list_lookup_fmap, He.
      * rewrite Forall_forall in Hfresh. apply Hfresh.
        by eapply list_elem_of_lookup_2.
    + destruct unfinished as [|order [|? ?]]; [constructor| |done].
      constructor; [|constructor]. right.
      destruct Hlast as (err & _ & _ & _ & _ & _ & _ & Herr).
      split_and!; [apply last_snoc | | by exists err].
      apply Forall_inv in Hfresh'.
      rewrite filter_app, items_of_fresh, orderItems_filter_others; [done| |done..].
      intros Hin. apply (Hdisj _ Hin). csimpl. apply list_elem_of_here.
  - intros Hrel. destruct user as [user_id|].
    2:{ simpl in Horders. rewrite <-(right_id_L [] (++) (orders (store w)))
          in Horders at 1. apply (inj (app _)) in Horders as <-.
        constructor. }
    destruct (handleSubmit_reliable user_id formData items w Hrel)
      as (created' & n & es & Hrun & _ & _ & Hcreated & Hnd & Hfresh).
    rewrite Hrun in Horders |- *. simpl in Horders |- *.
    apply (inj (app _)) in Horders as ->.
    apply Forall_lookup. intros k order Ho.
    destruct (Forall2_lookup_l _ _ _ _ _ Hcreated Ho)
      as (entry & He & number & id & Horder).
    unfold items_of. simpl. rewrite filter_app, items_of_fresh; [|done|].
    + rewrite (orderItems_filter_lookup _ _ k _ entry.2); [|done..|].
      * simpl. rewrite orderItems_total. by rewrite Horder.
      * by rewrite list_lookup_fmap, He.
    + rewrite Forall_forall in Hfresh. apply Hfresh.
      by eapply list_elem_of_lookup_2.
Qed.

(** C7 (order fields).  Every order that a checkout stores has status
    [pending]; its payment status is [pending] when the payment method of
    the form is ["cod"] and [paid] otherwise; its payment method is that
    of the form; and its shipping and billing addresses both hold the
    name, phone, address, city, state and pincode that the buyer entered
    in the form. *)
Theorem checkout_order_fields user formData
    (items : list (@CartLine uuid num)) w :
  ∃ created,
    orders (store (handleSubmit backend user formData items w).2)
    = orders (store w) ++ created
    ∧ Forall (λ order,
                ord_status order = OrderStatus.pending
                ∧ ord_payment_status order
                  = (if decide (paymentMethod formData = "cod")
                     then PaymentStatus.pending else PaymentStatus.paid)
                ∧ ord_payment_method order = paymentMethod formData
                ∧ ord_shipping_address order
                  = {| addr_fullName := fullName formData;
                       addr_phone := phone formData;
                       addr_address := address formData;
                       addr_city := city formData;
                       addr_state := state formData;
                       addr_pincode := pincode formData |}
                ∧ ord_billing_address order
                  = {| addr_fullName := fullName formData;
                       addr_phone := phone formData;
                       addr_address := address formData;
                       addr_city := city formData;
                       addr_state := state formData;
                       addr_pincode := pincode formData |})
             created.
Proof.
  destruct (handleSubmit_frame user formData items w)
    as (created & new_rows & Horders & _ & Hcreated & _).
  exists created. split; [done|].
  eapply Forall_impl; [exact Hcreated|]. simpl.
  by intros order (? & ? & ? & ? & ? & _ & ->).
Qed.


(** Where the store does not apply the request, the row stays as it is:
    with every call answered, a catalog row that no line reaches is left
    unchanged.  For a buyer who sells none of the products, that is the
    whole catalog. *)
Lemma checkout_stock_unreached user_id formData
    (items : list (@CartLine uuid num)) w :
  reliable backend →
  Forall2 (λ p p', (∀ item, item ∈ items → ¬ reached (Some user_id) p item) →
                   p' = p)
    (products (store w))
    (products (store (handleSubmit backend (Some user_id) formData items w).2)).
Proof.
  intros Hrel.
  destruct (handleSubmit_reliable user_id formData items w Hrel)
    as (created & n & es & -> & _). simpl.
  rewrite stock_steps_rows. apply Forall2_fmap_r, Forall_Forall2_diag.
  apply Forall_forall. intros p _ Hnot. apply stock_rows_unreached.
  intros item Hin. apply Hnot. by rewrite <-(groupedBySeller_concat items).
Qed.

(** C6 (cart clearing).  When every call is answered, the checkout ends
    with success signalled and with the cart table holding exactly the rows
    of the other buyers: every row of the buyer is gone, whether or not it
    was among the lines checked out, and whatever the number of groups. *)
Theorem checkout_clears_cart user_id formData
    (items : list (@CartLine uuid num)) w :
  reliable backend →
  cart_items (store (handleSubmit backend (Some user_id) formData items w).2)
  = filter (λ c, cart_buyer_id c ≠ user_id) (cart_items (store w))
  ∧ (∀ c, c ∈ cart_items
                (store (handleSubmit backend (Some user_id) formData items w).2)
          → cart_buyer_id c ≠ user_id)
  ∧ OnSuccess ∈ trace (handleSubmit backend (Some user_id) formData items w).2.
Proof.
  intros Hrel.
  destruct (handleSubmit_reliable user_id formData items w Hrel)
    as (created & n & es & -> & _). simpl.
  split_and!; [done| |].
  - by intros c [? _]%list_elem_of_filter.
  - rewrite elem_of_app. right. rewrite elem_of_cons, elem_of_app.
    right. right. rewrite !elem_of_cons. auto.
Qed.

(** C8 (empty checkout).  With no cart lines the checkout stores no order
    and no item row, yet it issues the delete of all cart rows of the buyer
    and signals success; if the delete is answered, the rows of the buyer
    are gone. *)
Theorem checkout_empty user_id formData w :
  orders (store (handleSubmit backend (Some user_id) formData [] w).2)
  = orders (store w)
  ∧ order_items (store (handleSubmit backend (Some user_id) formData [] w).2)
    = order_items (store w)
  ∧ (handleSubmit backend (Some user_id) formData [] w).1 = Normal tt
  ∧ trace (handleSubmit backend (Some user_id) formData [] w).2
    = trace w ++ [SetLoading true;
                  Remote (cart_items_delete_buyer user_id)
                         (failure backend (clock w));
                  OnSuccess; OnClose; SetLoading false]
  ∧ (failure backend (clock w) = None →
     cart_items (store (handleSubmit backend (Some user_id) formData [] w).2)
     = filter (λ c, cart_buyer_id c ≠ user_id) (cart_items (store w))).
Proof.
  erewrite handleSubmit_completed by done. simpl.
  rewrite <-(assoc_L (++)). simpl.
  destruct (failure backend (clock w)); by split_and!.
Qed.

(** C4 (partial failure).  In a checkout over two seller groups whose first
    group is stored and whose second order insert is answered with an error,
    the order and the item rows of the first group stay in the store, the
    cart table is untouched, no further remote call is issued (no
    compensating delete, no cart delete), and the failure is reported. *)
Theorem checkout_second_seller_fails user_id formData
    (items : list (@CartLine uuid num)) w s1 g1 s2 g2 e :
  groupedBySeller items = [(s1, g1); (s2, g2)] →
  failure backend (clock w) = None →
  failure backend (S (clock w)) = None →
  failure backend (length g1 + S (S (clock w))) = Some e →
  orders (store (handleSubmit backend (Some user_id) formData items w).2)
  = orders (store w) ++ [next_order backend user_id formData s1 g1 w]
  ∧ order_items (store (handleSubmit backend (Some user_id) formData items w).2)
    = order_items (store w)
      ++ orderItems (next_order backend user_id formData s1 g1 w) g1
  ∧ cart_items (store (handleSubmit backend (Some user_id) formData items w).2)
    = cart_items (store w)
  ∧ ∃ es,
      trace (handleSubmit backend (Some user_id) formData items w).2
      = trace w ++ SetLoading true
                :: es ++ [Remote orders_insert (Some e);
                          ConsoleError "Error creating order:";
                          Alert "Failed to create order. Please try again.";
                          SetLoading false]
      ∧ Forall checkout_call es.
Proof.
  intros Hgroups Ho Hi He.
  edestruct (handleSubmit_seller_inserted user_id formData s1 g1 (loading w))
    as (ps & es & Hfirst & Hes); [done..|].
  erewrite handleSubmit_thrown.
  2:{ rewrite Hgroups, for_of_cons, Hfirst. cbv beta iota.
      rewrite for_of_cons.
      erewrite handleSubmit_seller_order_error by exact He. done. }
  simpl. split_and!; [done..|].
  exists es. split; [|done]. by rewrite <-!(assoc_L (++)).
Qed.

(** ** The cart *)

(** C9 (quantity guard).  A requested quantity below 1 makes
    [updateQuantity] return at once: no remote call, no UI effect, the world
    is as before.  With a quantity of at least 1 the update is the first
    thing issued; so a remote call is issued only when the quantity is at
    least 1. *)
Theorem updateQuantity_guard user itemId newQuantity w :
  (newQuantity < 1 →
   updateQuantity backend user itemId newQuantity w = (Normal tt, w))
  ∧ (1 ≤ newQuantity →
     ∃ es,
       trace (updateQuantity backend user itemId newQuantity w).2
       = trace w ++ Remote (cart_items_update itemId newQuantity)
                           (failure backend (clock w)) :: es)
  ∧ (clock (updateQuantity backend user itemId newQuantity w).2 ≠ clock w →
     1 ≤ newQuantity).
Proof.
  unfold updateQuantity. split_and!.
  - intros Hlt. by rewrite decide_True.
  - intros Hge. rewrite decide_False by lia.
    unfold try_catch, try_catch_finally, bind, from_cart_items_update, remote,
      loadCart, try_catch_finally, bind, from_cart_items_select, remote, emit,
      throw, ret.
    destruct (failure backend (clock w)); simpl.
    { eexists. by rewrite <-(assoc_L (++)). }
    destruct user; simpl.
    2:{ by eexists. }
    destruct (failure backend (S (clock w))); simpl;
      eexists; by rewrite <-!(assoc_L (++)).
  - case_decide; [done | lia].
Qed.

Implicit Types (c : @CartItem uuid) (cart : list (@CartItem uuid)).

Lemma cart_filter_unique cart c :
  NoDup (cart_pair <$> cart) →
  c ∈ cart →
  filter (λ c', cart_buyer_id c' = cart_buyer_id c
                ∧ cart_product_id c' = cart_product_id c) cart = [c].
Proof.
  induction cart as [|c0 cart IH]; csimpl.
  { intros _ Hin. by apply elem_of_nil in Hin. }
  rewrite NoDup_cons, elem_of_cons. intros [Hc0 Hnd] [->|Hin].
  - rewrite filter_cons_True by done. f_equal.
    apply elem_of_nil_inv. intros c'. rewrite list_elem_of_filter.
    intros [[Hb Hp] Hin]. apply Hc0, list_elem_of_fmap. exists c'.
    split; [|done]. unfold cart_pair. by rewrite Hb, Hp.
  - rewrite filter_cons_False; [by apply IH|].
    intros [Hb Hp]. apply Hc0, list_elem_of_fmap. exists c.
    split; [|done]. unfold cart_pair. by rewrite Hb, Hp.
Qed.

Lemma cart_filter_absent cart buyer_id product_id :
  (∀ c, c ∈ cart →
        ¬ (cart_buyer_id c = buyer_id ∧ cart_product_id c = product_id)) →
  filter (λ c, cart_buyer_id c = buyer_id ∧ cart_product_id c = product_id)
         cart = [].
Proof.
  intros Habsent. apply elem_of_nil_inv. intros c.
  rewrite list_elem_of_filter. intros [? ?]. by eapply Habsent.
Qed.

Lemma cart_update_pairs uid cart id quantity :
  cart_pair <$> with_quantity uid id quantity cart = cart_pair <$> cart.
Proof.
  unfold with_quantity. induction cart as [|c cart IH]; [done|].
  csimpl. rewrite IH. by case_decide.
Qed.

(** An update by id changes nothing when the table has no row with that id
    that belongs to the session user. *)
Lemma cart_update_other uid cart id quantity :
  (∀ c, c ∈ cart → cart_id c = id → uid ≠ Some (cart_buyer_id c)) →
  with_quantity uid id quantity cart = cart.
Proof.
  unfold with_quantity. induction cart as [|c cart IH]; [done|].
  intros Hnone. csimpl. rewrite IH.
  - rewrite decide_False; [done|]. intros [Hid Hown].
    by apply (Hnone c); [apply list_elem_of_here|..].
  - intros c' Hin. apply Hnone. by apply list_elem_of_further.
Qed.

Lemma cart_update_missing uid cart id quantity :
  id ∉ cart_id <$> cart → with_quantity uid id quantity cart = cart.
Proof.
  intros Hnotin. apply cart_update_other. intros c Hin Hid. exfalso.
  apply Hnotin. rewrite <-Hid. apply list_elem_of_fmap. by exists c.
Qed.

(** Under the primary key, an update by id in the session of the owner of
    the row rewrites that row in place. *)
Lemma cart_update_in_place cart c quantity :
  NoDup (cart_id <$> cart) →
  c ∈ cart →
  ∃ before after,
    cart = before ++ c :: after
    ∧ with_quantity (Some (cart_buyer_id c)) (cart_id c) quantity cart
      = before ++ set_quantity quantity c :: after.
Proof.
  intros Hnd (before & after & ->)%list_elem_of_split.
  exists before, after. split; [done|].
  rewrite fmap_app in Hnd. csimpl in Hnd.
  apply NoDup_app in Hnd as (_ & Hbefore & [Hafter _]%NoDup_cons).
  unfold with_quantity. rewrite map_app. simpl. rewrite decide_True by done.
  fold (with_quantity (Some (cart_buyer_id c)) (cart_id c) quantity before).
  fold (with_quantity (Some (cart_buyer_id c)) (cart_id c) quantity after).
  rewrite !cart_update_missing; [done..|].
  intros Hin. apply (Hbefore _ Hin), list_elem_of_here.
Qed.

Lemma loadCartCount_store user w :
  (loadCartCount backend user w).1 = Normal tt
  ∧ store (loadCartCount backend user w).2 = store w.
Proof.
  unfold loadCartCount, try_catch, try_catch_finally, bind,
    from_cart_items_select_quantity, remote, emit, throw, ret.
  destruct user; [|done]. by destruct (failure backend (clock w)).
Qed.


(** What a run of [handleAddToCart] can do to the store. *)
Lemma handleAddToCart_store user profile (product : @Product uuid num) w :
  let s := store w in
  let s' := store (handleAddToCart backend user profile product w).2 in
  orders s' = orders s ∧ order_items s' = order_items s
  ∧ products s' = products s
  ∧ (cart_items s' = cart_items s
     ∨ (∃ uid id quantity,
          cart_items s' = with_quantity uid id quantity (cart_items s))
     ∨ (∃ user_id,
          user = Some user_id
          ∧ filter (λ c, cart_buyer_id c = user_id
                         ∧ cart_product_id c = prod_id product)
                   (cart_items s) = []
          ∧ cart_items s'
            = cart_items s
              ++ [{| cart_id := fresh (cart_id <$> cart_items s);
                     cart_buyer_id := user_id;
                     cart_product_id := prod_id product;
                     cart_quantity := 1 |}])).
Proof.
  unfold handleAddToCart. destruct user as [user_id|]; [|by auto].
  case_decide; [by auto|].
  unfold try_catch, try_catch_finally.
  set (body := bind _ _).
  assert (∃ r w1, body w = (r, w1) ∧
    orders (store w1) = orders (store w)
    ∧ order_items (store w1) = order_items (store w)
    ∧ products (store w1) = products (store w)
    ∧ (cart_items (store w1) = cart_items (store w)
     ∨ (∃ uid id quantity,
          cart_items (store w1)
          = with_quantity uid id quantity (cart_items (store w)))
     ∨ (filter (λ c, cart_buyer_id c = user_id
                         ∧ cart_product_id c = prod_id product)
                   (cart_items (store w)) = []
          ∧ cart_items (store w1)
            = cart_items (store w)
              ++ [{| cart_id := fresh (cart_id <$> cart_items (store w));
                     cart_buyer_id := user_id;
                     cart_product_id := prod_id product;
                     cart_quantity := 1 |}]))) as (r & w1 & -> & Hw1).
  { subst body.
    unfold bind, from_cart_items_find, from_cart_items_update,
      from_cart_items_insert, remote, throw, ret.
    pose proof (λ w, loadCartCount_store (Some user_id) w) as Hcount.
    repeat (case_match; cbn -[loadCartCount] in *; simplify_eq);
      try (eexists _, _; split; [done|]; simpl; by eauto 10);
      match goal with
      | |- context [loadCartCount backend _ ?w0] =>
          destruct (Hcount w0) as [? Hs];
          destruct (loadCartCount backend (Some user_id) w0) as [r1 w1] eqn:?;
          cbn -[loadCartCount] in *; exists r1, w1; split; [done|];
          rewrite Hs; simpl; eauto 10
      end. }
  destruct Hw1 as (? & ? & ? & Hcart).
  destruct r; simpl; (split_and!; [done..|]);
    destruct Hcart as [?|[?|[? ?]]]; eauto 10.
Qed.




End Facts.

(** * Further properties *)

Section More_facts.

Context {uuid : Type} `{!EqDecision uuid, !Infinite uuid}.
Context {num : Type} `{!Amount num}.
Context (backend : Backend).

Implicit Types (items sellerItems : list (@CartLine uuid num)).
Implicit Types (acc groups : list (uuid * list (@CartLine uuid num))).
Implicit Types (w : @World uuid num) (es : list (@Event uuid num)).
Implicit Types (ps : list (@Product uuid num)).
Implicit Types (order : @Order uuid num) (created : list (@Order uuid num)).
Implicit Types (c : @CartItem uuid) (cart : list (@CartItem uuid)).

(** ** The order of the groups *)

Lemma first_occurrences_elem_of (l : list uuid) x :
  x ∈ first_occurrences l ↔ x ∈ l.
Proof.
  induction l as [|y l IH]; simpl; [done|].
  rewrite !elem_of_cons, list_elem_of_filter, IH.
  destruct (decide (x = y)) as [->|]; [by split; left|].
  split; [intros [?|[_ ?]]; auto | intros [?|?]; auto].
Qed.

Lemma first_occurrences_snoc (l : list uuid) x :
  first_occurrences (l ++ [x])
  = if decide (x ∈ l) then first_occurrences l else first_occurrences l ++ [x].
Proof.
  induction l as [|y l IH]; simpl.
  { done. }
  rewrite IH. destruct (decide (x = y)) as [->|Hne].
  - rewrite (decide_True (P := y ∈ y :: l)) by apply list_elem_of_here.
    case_decide; [done|].
    rewrite filter_app, filter_cons_False, filter_nil by (by intros ?).
    by rewrite (right_id_L [] (++)).
  - case_decide as Hin.
    + by rewrite decide_True by (by apply list_elem_of_further).
    + rewrite decide_False by (by intros [?|?]%elem_of_cons).
      rewrite filter_app, filter_cons_True, filter_nil by done. done.
Qed.

Lemma groupedBySeller_step_keys acc (item : @CartLine uuid num) :
  (groupedBySeller_step acc item).*1
  = if decide (prod_seller_id (product item) ∈ acc.*1) then acc.*1
    else acc.*1 ++ [prod_seller_id (product item)].
Proof.
  unfold groupedBySeller_step.
  destruct (obj_get acc (prod_seller_id (product item))) as [v|] eqn:Hget.
  - rewrite Hget. rewrite obj_set_present by congruence.
    rewrite decide_True; [done|].
    destruct (decide (prod_seller_id (product item) ∈ acc.*1)) as [|Hn];
      [done|]. apply obj_get_None in Hn. congruence.
  - rewrite decide_False by (by apply obj_get_None).
    rewrite obj_get_set, decide_True by done.
    rewrite obj_set_present by (by rewrite obj_get_set, decide_True).
    by rewrite obj_set_absent, fmap_app by done.
Qed.

Lemma groupedBySeller_key_order items :
  (groupedBySeller items).*1
  = first_occurrences ((λ item, prod_seller_id (product item)) <$> items).
Proof.
  induction items as [|item items IH] using rev_ind; [done|].
  rewrite groupedBySeller_snoc, groupedBySeller_step_keys, fmap_app. simpl.
  rewrite first_occurrences_snoc, IH.
  destruct (decide (prod_seller_id (product item)
                    ∈ (λ item, prod_seller_id (product item)) <$> items)).
  - by rewrite decide_True by (by apply first_occurrences_elem_of).
  - by rewrite decide_False by (by rewrite first_occurrences_elem_of).
Qed.

(** X1.  [groupedBySeller] in closed form: the groups come in the order in
    which their sellers first occur in the input, and each holds the lines
    of its seller in input order. *)
Theorem groupedBySeller_closed_form items :
  groupedBySeller items
  = (λ sellerId,
       (sellerId,
        filter (λ item, prod_seller_id (product item) = sellerId) items))
    <$> first_occurrences ((λ item, prod_seller_id (product item)) <$> items).
Proof.
  rewrite <-groupedBySeller_key_order.
  pose proof (groupedBySeller_elem_of items) as Hgroups.
  induction (groupedBySeller items) as [|[sellerId sellerItems] groups IH];
    [done|].
  csimpl. f_equal.
  - f_equal. apply Hgroups, list_elem_of_here.
  - apply IH. intros ? ? ?. by apply Hgroups, list_elem_of_further.
Qed.

(** ** One item row per line *)

Lemma orderItems_row_line order sellerItems :
  row_line <$> orderItems order sellerItems = line_row <$> sellerItems.
Proof. unfold orderItems. by induction sellerItems; [|csimpl; f_equal]. Qed.

Lemma orderItems_rows_lines created
    (blocks : list (list (@CartLine uuid num))) :
  length created = length blocks →
  row_line <$> concat (zip_with orderItems created blocks)
  = line_row <$> concat blocks.
Proof.
  revert blocks. induction created as [|order created IH];
    intros [|its blocks] Hlen; try done.
  csimpl. rewrite !fmap_app, orderItems_row_line. f_equal.
  apply IH. by injection Hlen.
Qed.

(** X2.  When every call is answered, the checkout stores exactly one item
    row per cart line, with the product, quantity, snapshot price and
    [price * quantity] of that line: no line is dropped, merged or stored
    twice. *)
Theorem checkout_item_rows user_id formData items w :
  reliable backend →
  ∃ new_rows,
    order_items (store (handleSubmit backend (Some user_id) formData items w).2)
    = order_items (store w) ++ new_rows
    ∧ row_line <$> new_rows ≡ₚ line_row <$> items.
Proof.
  intros Hrel.
  destruct (handleSubmit_reliable backend user_id formData items w Hrel)
    as (created & n & es & -> & _ & _ & Hcreated & _).
  eexists. split; [done|].
  rewrite orderItems_rows_lines.
  - by rewrite groupedBySeller_concat.
  - rewrite length_fmap. by eapply Forall2_length.
Qed.

(** ** The total shown and the totals stored *)

Section exact.

Context (Hexact : @exact_arithmetic num _).

Lemma fold_plus_shift {A} (v : A → num) (l : list A) (s : num) :
  fold_left (λ sum x, plus sum (v x)) l s
  = plus s (fold_left (λ sum x, plus sum (v x)) l zero).
Proof.
  destruct Hexact as (Hassoc & Hcomm & Hunit).
  revert s. induction l as [|x l IH]; intros s; simpl.
  - by rewrite Hcomm, Hunit.
  - rewrite IH, (IH (plus zero (v x))), Hunit. apply Hassoc.
Qed.

Lemma fold_plus_perm {A} (v : A → num) (l l' : list A) (s : num) :
  l ≡ₚ l' →
  fold_left (λ sum x, plus sum (v x)) l s
  = fold_left (λ sum x, plus sum (v x)) l' s.
Proof.
  destruct Hexact as (Hassoc & Hcomm & Hunit).
  intros Hperm. revert s.
  induction Hperm as [|x l l' _ IH|x y l|l l' l'' _ IH1 _ IH2]; intros s;
    simpl; [done|apply IH| |by rewrite IH1].
  f_equal. by rewrite !Hassoc, (Hcomm (v y)).
Qed.

Lemma total_app items1 items2 :
  total (items1 ++ items2) = plus (total items1) (total items2).
Proof.
  unfold total. rewrite fold_left_app. apply fold_plus_shift.
Qed.

Lemma sum_total_amount_groups user_id formData created groups :
  Forall2 (λ order entry, ∃ number id,
             order = order_row user_id formData entry.1 entry.2 number id)
          created groups →
  sum_total_amount created = total (concat groups.*2).
Proof.
  destruct Hexact as (Hassoc & Hcomm & Hunit).
  induction 1 as [|order [sellerId sellerItems] created groups
                   (number & id & ->) _ IH]; [done|].
  csimpl. rewrite total_app, <-IH. unfold sum_total_amount. simpl.
  by rewrite fold_plus_shift, Hunit.
Qed.

(** X3.  With exact arithmetic and every call answered, the
    [total_amount]s of the orders that the checkout stores add up to the
    total that the modal shows for the same lines. *)
Theorem checkout_total user_id formData items w :
  reliable backend →
  ∃ created,
    orders (store (handleSubmit backend (Some user_id) formData items w).2)
    = orders (store w) ++ created
    ∧ sum_total_amount created = total items.
Proof.
  intros Hrel.
  destruct (handleSubmit_reliable backend user_id formData items w Hrel)
    as (created & n & es & -> & _ & _ & Hcreated & _).
  exists created. split; [done|].
  rewrite (sum_total_amount_groups _ _ _ _ Hcreated).
  apply fold_plus_perm, groupedBySeller_concat.
Qed.

End exact.

(** ** The number of remote calls *)

Lemma sellers_loop_clock user_id formData groups w :
  reliable backend →
  clock (for_of groups (handleSubmit_seller backend user_id formData) w).2
  = (clock w + 2 * length groups + length (concat groups.*2))%nat.
Proof.
  intros Hrel. revert w.
  induction groups as [|[sellerId sellerItems] groups IH]; intros w.
  - simpl. lia.
  - rewrite for_of_cons.
    destruct (handleSubmit_seller_reliable backend user_id formData sellerId
                sellerItems w Hrel) as (es & -> & _).
    rewrite IH. csimpl. rewrite length_app. lia.
Qed.

(** X4.  When every call is answered, a checkout issues two calls per
    seller group, one per cart line, and one for the cart: the calls are
    awaited one after the other, so its duration is linear in both. *)
Theorem checkout_calls user_id formData items w :
  reliable backend →
  clock (handleSubmit backend (Some user_id) formData items w).2
  = (clock w + 2 * length (groupedBySeller items) + length items + 1)%nat.
Proof.
  intros Hrel.
  pose proof (sellers_loop_clock user_id formData (groupedBySeller items)
                (loading w) Hrel) as Hclock.
  destruct (sellers_loop_reliable backend user_id formData
              (groupedBySeller items) (loading w) Hrel)
    as (created & n & es & Hloop & _).
  rewrite (handleSubmit_completed backend _ _ _ _ _ Hloop). simpl.
  rewrite Hloop in Hclock. simpl in Hclock. rewrite Hclock.
  rewrite (Permutation_length (groupedBySeller_concat items)). lia.
Qed.

(** ** Runs on any backend *)

Lemma stock_only_refl items (p : @Product uuid num) : stock_only items p p.
Proof. by repeat split. Qed.

Lemma stock_only_trans items1 items2 (p p1 p2 : @Product uuid num) :
  stock_only items1 p p1 → stock_only items2 p1 p2 →
  stock_only (items1 ++ items2) p p2.
Proof.
  intros (Hid1 & Hs1 & Hn1 & Hp1 & Ha1 & Hsame1)
         (Hid2 & Hs2 & Hn2 & Hp2 & Ha2 & Hsame2).
  split_and!; [congruence..|].
  rewrite fmap_app, not_elem_of_app. intros [Hnot1 Hnot2].
  rewrite Hsame2, Hsame1; [done..|]. by rewrite Hid1.
Qed.

Lemma stock_only_subseteq items1 items2 (p p' : @Product uuid num) :
  (∀ item, item ∈ items1 → item ∈ items2) →
  stock_only items1 p p' → stock_only items2 p p'.
Proof.
  intros Hsub (? & ? & ? & ? & ? & Hsame). split_and!; [done..|].
  intros Hnot. apply Hsame.
  intros (item & ? & ?)%list_elem_of_fmap. apply Hnot.
  apply list_elem_of_fmap. exists item. auto.
Qed.

Lemma stock_step_stock_only uid ps (item : @CartLine uuid num) :
  Forall2 (stock_only [item]) ps (stock_step uid ps item).
Proof.
  rewrite stock_step_rows. apply Forall2_fmap_r, Forall_Forall2_diag.
  apply Forall_forall. intros p _. unfold compose, stock_row.
  repeat case_decide; try apply stock_only_refl.
  split_and!; [done..|]. intros Hnot. exfalso. apply Hnot.
  match goal with H : _ ∧ _ |- _ => destruct H as [-> _] end.
  apply list_elem_of_here.
Qed.

Lemma Forall2_stock_only_refl items ps : Forall2 (stock_only items) ps ps.
Proof. induction ps; constructor; auto using stock_only_refl. Qed.

Lemma Forall2_stock_only_trans items1 items2 ps ps1 ps2 :
  Forall2 (stock_only items1) ps ps1 →
  Forall2 (stock_only items2) ps1 ps2 →
  Forall2 (stock_only (items1 ++ items2)) ps ps2.
Proof.
  intros H1. revert ps2.
  induction H1 as [|p p1 ps ps1 Hp _ IH]; intros ps2 H2;
    inversion H2; subst; constructor; eauto using stock_only_trans.
Qed.

Local Abbreviation stock_loop uid sellerItems :=
  (for_of sellerItems (λ item : @CartLine uuid num,
     bind (from_products_update backend uid
             (prod_stock_quantity (product item) - cart_quantity (line item))
             (cart_product_id (line item)))
          (λ _, ret tt))).

(** The stock loop on any backend: it completes normally, issues one stock
    update per line and nothing else, and changes nothing but stocks of
    products of its lines. *)
Lemma stock_loop_any uid sellerItems w :
  ∃ ps es,
    stock_loop uid sellerItems w
    = (Normal tt,
       {| store :=
            {| orders := orders (store w);
               order_items := order_items (store w);
               products := ps;
               cart_items := cart_items (store w) |};
          clock := length sellerItems + clock w;
          trace := trace w ++ es |})
    ∧ Forall stock_call es
    ∧ Forall2 (stock_only sellerItems) (products (store w)) ps.
Proof.
  revert w. induction sellerItems as [|item sellerItems IH]; intros w.
  - exists (products (store w)), []. destruct w as [[] ? ?]. simpl.
    rewrite (right_id_L [] (++)).
    split_and!; [done | constructor | apply Forall2_stock_only_refl].
  - rewrite for_of_cons. unfold bind at 1.
    destruct (from_products_update_run backend uid item w)
      as (r & answer & ->).
    unfold ret at 1.
    edestruct IH as (ps & es & -> & Hes & Hps). simpl in *.
    exists ps, (Remote (stock_request item) answer :: es).
    rewrite <-(assoc_L (++)), Nat.add_succ_r.
    split_and!; [done | by constructor |].
    destruct (failure backend (clock w)) as [e|].
    + eapply Forall2_impl; [exact Hps|]. intros q q'.
      apply stock_only_subseteq. intros ? ?. by apply list_elem_of_further.
    + apply (Forall2_stock_only_trans [item] sellerItems _ _ _
               (stock_step_stock_only _ _ item) Hps).
Qed.

Lemma stock_call_not_insert_failed es :
  Forall stock_call es → Forall (λ e, ¬ insert_failed e) es.
Proof.
  intros Hes. eapply Forall_impl; [exact Hes|].
  intros [[] []| | | | | | | |]; simpl; tauto.
Qed.

Lemma stock_call_checkout_call es :
  Forall stock_call es → Forall checkout_call es.
Proof.
  intros Hes. eapply Forall_impl; [exact Hes|].
  intros [[] []| | | | | | | |]; simpl; tauto.
Qed.

Lemma orderItems_order_id order sellerItems (row : @OrderItem uuid num) :
  row ∈ orderItems order sellerItems → item_order_id row = ord_id order.
Proof. unfold orderItems. by intros (item & -> & _)%list_elem_of_fmap. Qed.

(** One group on any backend. *)
Lemma handleSubmit_seller_any user_id formData sellerId sellerItems w :
  ∃ r w1 es,
    handleSubmit_seller backend user_id formData (sellerId, sellerItems) w
    = (r, w1)
    ∧ trace w1 = trace w ++ es
    ∧ Forall checkout_call es
    ∧ loop_outcome r es
    ∧ cart_items (store w1) = cart_items (store w)
    ∧ Forall2 (stock_only sellerItems)
              (products (store w)) (products (store w1))
    ∧ (referential (store w) → referential (store w1))
    ∧ (clock w1 ≤ clock w + 2 + length sellerItems)%nat.
Proof.
  destruct (failure backend (clock w)) as [e|] eqn:Ho.
  { rewrite (handleSubmit_seller_order_error _ _ _ _ _ _ e) by done.
    eexists _, _, [_]. split; [done|]. simpl.
    split_and!; [done | by repeat constructor | | done
                 | apply Forall2_stock_only_refl | done | lia].
    exists [], orders_insert. split_and!; [done | by left | constructor]. }
  destruct (failure backend (S (clock w))) as [e|] eqn:Hi.
  { rewrite (handleSubmit_seller_items_error _ _ _ _ _ _ e) by done.
    eexists _, _, [_; _]. split; [done|]. simpl.
    split_and!; [done | by repeat constructor | | done
                 | apply Forall2_stock_only_refl | | lia].
    - exists [Remote orders_insert None], order_items_insert.
      split_and!; [done | by right |].
      constructor; [simpl; tauto | constructor].
    - unfold referential. simpl. intros Href row Hrow.
      rewrite fmap_app, elem_of_app. left. by apply Href. }
  unfold handleSubmit_seller, bind, draw_order_number,
    from_orders_insert, from_order_items_insert, remote. simpl.
  rewrite Ho. simpl. rewrite Hi. simpl.
  edestruct (stock_loop_any (Some user_id)) as (ps & es & -> & Hes & Hps).
  simpl in *.
  eexists _, _, (Remote orders_insert None
                 :: Remote order_items_insert None :: es).
  split; [done|]. simpl. rewrite <-!(assoc_L (++)). simpl.
  split_and!; [done | | | done | done | | lia].
  - repeat constructor. by apply stock_call_checkout_call.
  - constructor; [simpl; tauto|]. constructor; [simpl; tauto|].
    by apply stock_call_not_insert_failed.
  - unfold referential. simpl.
    intros Href row [Hrow|Hrow]%elem_of_app;
      rewrite fmap_app, elem_of_app; [left; by apply Href|right].
    apply orderItems_order_id in Hrow. rewrite Hrow.
    apply list_elem_of_here.
Qed.

(** The loop over the groups on any backend. *)
Lemma sellers_loop_any user_id formData groups w :
  ∃ r w1 es,
    for_of groups (handleSubmit_seller backend user_id formData) w = (r, w1)
    ∧ trace w1 = trace w ++ es
    ∧ Forall checkout_call es
    ∧ loop_outcome r es
    ∧ cart_items (store w1) = cart_items (store w)
    ∧ Forall2 (stock_only (concat groups.*2))
              (products (store w)) (products (store w1))
    ∧ (referential (store w) → referential (store w1))
    ∧ (clock w1 ≤ clock w + 2 * length groups
                  + length (concat groups.*2))%nat.
Proof.
  revert w. induction groups as [|[sellerId sellerItems] groups IH]; intros w.
  - exists (Normal tt), w, []. simpl. rewrite (right_id_L [] (++)).
    split_and!; [done | done | constructor | constructor | done
                 | apply Forall2_stock_only_refl | done | lia].
  - rewrite for_of_cons.
    destruct (handleSubmit_seller_any user_id formData sellerId sellerItems w)
      as (r & w1 & es & -> & Htrace & Hcalls & Hout & Hcart & Hps & Href
          & Hclock).
    csimpl. destruct r as [[]|err].
    + destruct (IH w1) as (r' & w2 & es' & -> & Htrace' & Hcalls' & Hout'
                           & Hcart' & Hps' & Href' & Hclock').
      exists r', w2, (es ++ es').
      split_and!; [done | by rewrite Htrace', Htrace, (assoc_L (++))
                   | by apply Forall_app | | congruence
                   | by eapply Forall2_stock_only_trans | auto
                   | rewrite length_app; lia].
      destruct r' as [[]|err']; simpl in *.
      * by apply Forall_app.
      * destruct Hout' as (es'' & req & -> & Hreq & Hok).
        exists (es ++ es''), req. rewrite (assoc_L (++)).
        split_and!; [done.. | by apply Forall_app].
    + exists (Thrown err), w1, es.
      split_and!; [done.. | | done | rewrite length_app; lia].
      eapply Forall2_impl; [exact Hps|]. intros p p'.
      apply stock_only_subseteq. intros ? ?. apply elem_of_app. by left.
Qed.

(** A whole run for a signed-in user on any backend. *)
Lemma handleSubmit_any user_id formData items w :
  ∃ calls,
    Forall checkout_call calls
    ∧ Forall (λ e, ¬ insert_failed e) calls
    ∧ ((∃ answer,
          trace (handleSubmit backend (Some user_id) formData items w).2
          = trace w ++ SetLoading true
                    :: calls ++ [Remote (cart_items_delete_buyer user_id) answer;
                                 OnSuccess; OnClose; SetLoading false]
          ∧ (cart_items
               (store (handleSubmit backend (Some user_id) formData items w).2)
             = cart_items (store w)
             ∨ cart_items
                 (store (handleSubmit backend (Some user_id) formData items w).2)
               = filter (λ c, cart_buyer_id c ≠ user_id)
                        (cart_items (store w))))
       ∨ (∃ req err,
            (req = orders_insert ∨ req = order_items_insert)
            ∧ trace (handleSubmit backend (Some user_id) formData items w).2
              = trace w ++ SetLoading true
                        :: calls ++ [Remote req (Some err);
                                     ConsoleError "Error creating order:";
                                     Alert "Failed to create order. Please try again.";
                                     SetLoading false]
            ∧ cart_items
                (store (handleSubmit backend (Some user_id) formData items w).2)
              = cart_items (store w)))
    ∧ Forall2 (stock_only items) (products (store w))
        (products
           (store (handleSubmit backend (Some user_id) formData items w).2))
    ∧ (referential (store w) →
       referential
         (store (handleSubmit backend (Some user_id) formData items w).2))
    ∧ (clock (handleSubmit backend (Some user_id) formData items w).2
       ≤ clock w + 2 * length (groupedBySeller items) + length items + 1)%nat.
Proof.
  destruct (sellers_loop_any user_id formData (groupedBySeller items)
              (loading w))
    as (r & w1 & es & Hloop & Htrace & Hcalls & Hout & Hcart & Hps & Href
        & Hclock).
  simpl in Htrace, Hcart, Hps, Href, Hclock.
  rewrite (Permutation_length (groupedBySeller_concat items)) in Hclock.
  assert (Forall2 (stock_only items) (products (store w))
            (products (store w1))) as Hps'.
  { eapply Forall2_impl; [exact Hps|]. intros p p'.
    apply stock_only_subseteq. intros item.
    by rewrite groupedBySeller_concat. }
  destruct r as [[]|err]; simpl in Hout.
  - rewrite (handleSubmit_completed backend _ _ _ _ _ Hloop). simpl.
    exists es. split_and!; [done..| | | |lia].
    + left. exists (failure backend (clock w1)).
      rewrite Htrace, <-!(assoc_L (++)). split; [done|].
      destruct (failure backend (clock w1)); simpl; rewrite Hcart; auto.
    + by destruct (failure backend (clock w1)).
    + intros Hr. specialize (Href Hr).
      by destruct (failure backend (clock w1)).
  - rewrite (handleSubmit_thrown backend _ _ _ _ _ _ Hloop). simpl.
    destruct Hout as (es' & req & -> & Hreq & Hok).
    exists es'. split_and!; [|done| |done|auto|lia].
    + by apply Forall_app in Hcalls as [? _].
    + right. exists req, err. split; [done|].
      rewrite Htrace, <-!(assoc_L (++)). by split.
Qed.

(** X5.  Every run of [handleSubmit] for a signed-in user sets the loading
    flag first and clears it last.  In between it issues calls of the loop
    of which no insert failed, and then either issues the cart delete and
    calls [onSuccess] and [onClose], or meets an insert answered with an
    error, logs it and shows one alert: never both, and an alert only for
    a failed insert. *)
Theorem handleSubmit_outcome user_id formData items w :
  ∃ calls,
    Forall checkout_call calls
    ∧ Forall (λ e, ¬ insert_failed e) calls
    ∧ ((∃ answer,
          trace (handleSubmit backend (Some user_id) formData items w).2
          = trace w ++ SetLoading true
                    :: calls ++ [Remote (cart_items_delete_buyer user_id) answer;
                                 OnSuccess; OnClose; SetLoading false])
       ∨ (∃ req err,
            (req = orders_insert ∨ req = order_items_insert)
            ∧ trace (handleSubmit backend (Some user_id) formData items w).2
              = trace w ++ SetLoading true
                        :: calls ++ [Remote req (Some err);
                                     ConsoleError "Error creating order:";
                                     Alert "Failed to create order. Please try again.";
                                     SetLoading false])).
Proof.
  destruct (handleSubmit_any user_id formData items w)
    as (calls & Hcalls & Hok & Hend & _).
  exists calls. split_and!; [done..|].
  destruct Hend as [(answer & Htrace & _)|(req & err & Hreq & Htrace & _)];
    [left|right]; eauto.
Qed.

(** X6.  No run of [handleSubmit] changes a cart row or removes a row of
    another buyer: the cart table is left as it is, or loses exactly the
    rows of the signed-in user; and it is left as it is whenever the run
    ends with the alert. *)
Theorem handleSubmit_cart_frame user formData items w :
  (cart_items (store (handleSubmit backend user formData items w).2)
   = cart_items (store w)
   ∨ ∃ user_id,
       user = Some user_id
       ∧ cart_items (store (handleSubmit backend user formData items w).2)
         = filter (λ c, cart_buyer_id c ≠ user_id) (cart_items (store w)))
  ∧ (Alert "Failed to create order. Please try again."
       ∈ drop (length (trace w))
              (trace (handleSubmit backend user formData items w).2) →
     cart_items (store (handleSubmit backend user formData items w).2)
     = cart_items (store w)).
Proof.
  destruct user as [user_id|]; [|by split; [left|]].
  destruct (handleSubmit_any user_id formData items w)
    as (calls & Hcalls & _ & Hend & _).
  destruct Hend as [(answer & Htrace & Hcart)|(req & err & _ & Htrace & Hcart)].
  - split; [destruct Hcart; eauto|].
    rewrite Htrace, drop_app_length. intros Hin. exfalso.
    apply elem_of_cons in Hin as [?|Hin]; [done|].
    apply elem_of_app in Hin as [Hin|Hin].
    + rewrite Forall_forall in Hcalls. by apply Hcalls in Hin.
    + rewrite !elem_of_cons in Hin.
      destruct Hin as [?|[?|[?|[?|Hin]]]]; try done.
      by apply elem_of_nil in Hin.
  - split; [by left | done].
Qed.

(** X7.  No run of [handleSubmit] adds, removes or reorders catalog rows
    or changes the id, seller, name or price of one; the only rows it can
    change are those of products of the lines checked out, and only in
    their stock. *)
Theorem handleSubmit_catalog_frame user_id formData items w :
  Forall2 (stock_only items) (products (store w))
    (products (store (handleSubmit backend (Some user_id) formData items w).2)).
Proof.
  by destruct (handleSubmit_any user_id formData items w)
    as (calls & _ & _ & _ & Hps & _).
Qed.

Lemma orderItems_blocks (stored : list (@Order uuid num)) groups :
  (length stored ≤ length groups)%nat →
  length (zip_with orderItems stored groups.*2) = length stored
  ∧ Forall2 (λ order block,
               Forall (λ row, item_order_id row = ord_id order) block)
            stored (zip_with orderItems stored groups.*2)
  ∧ Forall2 (λ block entry, row_line <$> block = line_row <$> entry.2)
            (zip_with orderItems stored groups.*2)
            (take (length stored) groups).
Proof.
  revert groups. induction stored as [|order stored IH];
    intros [|[sellerId sellerItems] groups] Hlen; csimpl in *; try lia.
  { split_and!; [done | constructor | constructor]. }
  { split_and!; [done | constructor | constructor]. }
  destruct (IH groups) as (Hl & Hids & Hlines); [lia|].
  split_and!; [by rewrite Hl | |].
  - constructor; [|done]. apply Forall_forall. intros row.
    apply orderItems_order_id.
  - constructor; [|done]. apply orderItems_row_line.
Qed.

(** X8.  Every run of [handleSubmit] keeps the foreign key of
    [order_items].  The item rows that it stores come in blocks, one for
    each order that it stored together with its rows, in the order in
    which these orders were stored: the rows of a block carry the id that
    the store gave to that order, which is new and differs from the id of
    every other order, and they are the rows of the lines of the seller
    group of that order.  At most one order, the last, is stored without a
    block. *)
Theorem handleSubmit_referential user_id formData items w :
  referential (store w) →
  referential (store (handleSubmit backend (Some user_id) formData items w).2)
  ∧ ∃ created blocks,
      orders (store (handleSubmit backend (Some user_id) formData items w).2)
      = orders (store w) ++ created
      ∧ order_items
          (store (handleSubmit backend (Some user_id) formData items w).2)
        = order_items (store w) ++ concat blocks
      ∧ Forall2 (λ order block,
                   Forall (λ row, item_order_id row = ord_id order) block)
                (take (length blocks) created) blocks
      ∧ Forall2 (λ block entry, row_line <$> block = line_row <$> entry.2)
                blocks (take (length blocks) (groupedBySeller items))
      ∧ (length created ≤ S (length blocks))%nat
      ∧ NoDup (ord_id <$> created)
      ∧ Forall (λ order, ord_id order ∉ ord_id <$> orders (store w)) created.
Proof.
  intros Href. split.
  { by destruct (handleSubmit_any user_id formData items w)
      as (calls & _ & _ & _ & _ & Href' & _); auto. }
  destruct (handleSubmit_rows backend user_id formData items w)
    as (stored & unfinished & Ho & Hi & Hstored & Hnd & Hfresh & Hlast).
  assert (length stored ≤ length (groupedBySeller items))%nat as Hlen.
  { apply Forall2_length in Hstored. rewrite length_take in Hstored. lia. }
  destruct (orderItems_blocks stored (groupedBySeller items) Hlen)
    as (Hl & Hids & Hlines).
  exists (stored ++ unfinished),
    (zip_with orderItems stored (groupedBySeller items).*2).
  rewrite Hl, take_app_length.
  split_and!; [done..| |done|done].
  rewrite length_app. destruct unfinished as [|? [|? ?]]; simpl; [lia..|done].
Qed.

(** X9.  No run of [handleSubmit] issues more remote calls than two per
    seller group, one per line and one for the cart: no call is retried. *)
Theorem handleSubmit_calls_bound user_id formData items w :
  (clock (handleSubmit backend (Some user_id) formData items w).2
   ≤ clock w + 2 * length (groupedBySeller items) + length items + 1)%nat.
Proof.
  by destruct (handleSubmit_any user_id formData items w)
    as (calls & _ & _ & _ & _ & _ & Hclock).
Qed.

(** ** Checking out twice from one snapshot *)

(** Running the stock updates of the same lines again changes nothing. *)
Lemma stock_steps_idempotent uid items ps :
  NoDup (cart_product_id ∘ line <$> items) →
  fold_left (stock_step uid) items (fold_left (stock_step uid) items ps)
  = fold_left (stock_step uid) items ps.
Proof.
  intros Hnd. rewrite !stock_steps_rows, map_map.
  apply map_ext. intros p.
  destruct (decide (Exists (reached uid p) items)) as [Hex|Hnone].
  - apply Exists_exists in Hex as (item & Hin & Hreached).
    rewrite (stock_rows_reached uid p items item) by done.
    rewrite (stock_rows_reached uid _ items item); [done|done|done|].
    destruct Hreached as (? & ? & ?). by split_and!.
  - rewrite (stock_rows_unreached uid p items).
    + apply stock_rows_unreached. intros item Hin Hreached.
      apply Hnone, Exists_exists. eauto.
    + intros item Hin Hreached. apply Hnone, Exists_exists. eauto.
Qed.

(** X10.  The stock written is computed from the snapshot in the line:
    when the same lines are checked out twice and every call is answered,
    the second run stores a second order for every seller and leaves
    every stock as the first run left it. *)
Theorem checkout_twice user_id formData items w :
  reliable backend →
  NoDup (cart_product_id ∘ line <$> items) →
  let w1 := (handleSubmit backend (Some user_id) formData items w).2 in
  let w2 := (handleSubmit backend (Some user_id) formData items w1).2 in
  products (store w2) = products (store w1)
  ∧ length (orders (store w2))
    = (length (orders (store w)) + 2 * length (groupedBySeller items))%nat.
Proof.
  intros Hrel Hnd w1 w2.
  destruct (handleSubmit_reliable backend user_id formData items w Hrel)
    as (created1 & n1 & es1 & Hrun1 & _ & _ & Hcreated1 & _).
  destruct (handleSubmit_reliable backend user_id formData items w1 Hrel)
    as (created2 & n2 & es2 & Hrun2 & _ & _ & Hcreated2 & _).
  apply Forall2_length in Hcreated1, Hcreated2.
  subst w2. rewrite Hrun2. subst w1. rewrite Hrun1. simpl. split.
  - apply stock_steps_idempotent. by rewrite groupedBySeller_concat.
  - rewrite !length_app. lia.
Qed.

(** ** The cart modal *)

Lemma loadCart_run user_id w :
  loadCart backend (Some user_id) w
  = (Normal tt,
     {| store := store w;
        clock := S (clock w);
        trace :=
          trace w ++ [SetLoading true;
                      Remote (cart_items_select user_id)
                             (failure backend (clock w));
                      match failure backend (clock w) with
                      | Some _ => ConsoleError "Error loading cart:"
                      | None =>
                          SetCartItems
                            (map (λ c, (c, find (λ p, bool_decide
                                              (prod_id p = cart_product_id c
                                               ∧ (prod_is_active p = true
                                                  ∨ prod_seller_id p
                                                    = user_id)))
                                             (products (store w))))
                                 (filter (λ c, cart_buyer_id c = user_id)
                                         (cart_items (store w))))
                      end;
                      SetLoading false] |}).
Proof.
  unfold loadCart, try_catch_finally, bind, from_cart_items_select, remote,
    emit, throw. simpl.
  destruct (failure backend (clock w)); simpl; rewrite <-!(assoc_L (++));
    by destruct w as [[] ? ?].
Qed.

Lemma well_joined_view (s : @Store uuid num) user_id cart :
  Forall (well_joined s user_id)
    (map (λ c, (c, find (λ p, bool_decide
                                (prod_id p = cart_product_id c
                                 ∧ (prod_is_active p = true
                                    ∨ prod_seller_id p = user_id)))
                        (products s))) cart).
Proof.
  induction cart as [|c cart IH]; constructor; [|done].
  unfold well_joined, visible_to. simpl.
  destruct (find _ (products s)) as [p|] eqn:Hfind.
  - apply find_some in Hfind as [Hin Hp].
    apply bool_decide_eq_true in Hp as [Hid Hvisible].
    split_and!; [by apply list_elem_of_In | done | done].
  - intros p Hin Hid Hvisible. apply list_elem_of_In in Hin.
    apply (find_none _ _ Hfind) in Hin.
    apply bool_decide_eq_false in Hin. by apply Hin.
Qed.

(** X11.  [loadCart] for a signed-in user never changes the store and
    always ends by clearing the loading flag.  When the select is answered
    it shows exactly the cart rows of that user, in table order, each with
    a catalog row of its product that the user may read (one that is
    active, or sold by the user); the product is missing only if the
    catalog has no such row, so also when the product of the cart row has
    been deactivated by its seller.  When the select is answered with an
    error it shows nothing new and logs the error. *)
Theorem loadCart_shows_own_rows user_id w :
  store (loadCart backend (Some user_id) w).2 = store w
  ∧ ∃ shown,
      trace (loadCart backend (Some user_id) w).2
      = trace w ++ [SetLoading true;
                    Remote (cart_items_select user_id)
                           (failure backend (clock w));
                    shown; SetLoading false]
      ∧ match failure backend (clock w) with
        | Some _ => shown = ConsoleError "Error loading cart:"
        | None =>
            ∃ data,
              shown = SetCartItems data
              ∧ data.*1 = filter (λ c, cart_buyer_id c = user_id)
                                 (cart_items (store w))
              ∧ Forall (λ entry,
                          match entry.2 with
                          | Some p =>
                              p ∈ products (store w)
                              ∧ prod_id p = cart_product_id entry.1
                              ∧ (prod_is_active p = true
                                 ∨ prod_seller_id p = user_id)
                          | None =>
                              ∀ p, p ∈ products (store w) →
                                   prod_id p = cart_product_id entry.1 →
                                   ¬ (prod_is_active p = true
                                      ∨ prod_seller_id p = user_id)
                          end) data
        end.
Proof.
  rewrite loadCart_run. simpl. split; [done|].
  eexists. split; [done|].
  destruct (failure backend (clock w)); [done|].
  eexists. split_and!; [done| |apply well_joined_view].
  generalize (filter (λ c, cart_buyer_id c = user_id) (cart_items (store w))).
  intros cart. by induction cart; [|csimpl; f_equal].
Qed.

Lemma loadCart_store user w :
  (loadCart backend user w).1 = Normal tt
  ∧ store (loadCart backend user w).2 = store w.
Proof. destruct user; [by rewrite loadCart_run | done]. Qed.

Lemma updateQuantity_store user itemId newQuantity w :
  1 ≤ newQuantity →
  store (updateQuantity backend user itemId newQuantity w).2
  = match failure backend (clock w) with
    | Some _ => store w
    | None =>
        {| orders := orders (store w);
           order_items := order_items (store w);
           products := products (store w);
           cart_items :=
             with_quantity user itemId newQuantity (cart_items (store w)) |}
    end.
Proof.
  intros Hge. unfold updateQuantity. rewrite decide_False by lia.
  unfold try_catch, try_catch_finally, bind, from_cart_items_update, remote,
    throw, emit.
  destruct (failure backend (clock w)); simpl; [done|].
  match goal with
  | |- context [loadCart backend user ?w0] =>
      destruct (loadCart_store user w0) as [Hr Hs];
      destruct (loadCart backend user w0) as [r1 w1]
  end.
  simpl in *. subst r1. simpl. by rewrite Hs.
Qed.

(** Under the primary key, a row is known by its id. *)
Lemma cart_keyed_inj cart c c' :
  NoDup (cart_id <$> cart) → c ∈ cart → c' ∈ cart →
  cart_id c = cart_id c' → c = c'.
Proof.
  induction cart as [|c0 cart IH]; csimpl.
  { intros _ Hin. by apply elem_of_nil in Hin. }
  rewrite NoDup_cons, !elem_of_cons.
  intros [Hc0 Hnd] [->|Hin] [->|Hin'] Hid; [done| | |by apply IH].
  - exfalso. apply Hc0. rewrite Hid. apply list_elem_of_fmap. by exists c'.
  - exfalso. apply Hc0. rewrite <-Hid. apply list_elem_of_fmap. by exists c.
Qed.


Lemma with_quantity_twice uid cart itemId quantity quantity' :
  with_quantity uid itemId quantity' (with_quantity uid itemId quantity cart)
  = with_quantity uid itemId quantity' cart.
Proof.
  unfold with_quantity. induction cart as [|c cart IH]; [done|].
  simpl. rewrite IH. f_equal.
  destruct (decide (cart_id c = itemId ∧ uid = Some (cart_buyer_id c))); simpl.
  - by rewrite decide_True.
  - by rewrite decide_False.
Qed.

Lemma with_quantity_same uid cart c :
  NoDup (cart_id <$> cart) → c ∈ cart →
  with_quantity uid (cart_id c) (cart_quantity c) cart = cart.
Proof.
  intros Hnd Hin. unfold with_quantity.
  rewrite <-(map_id cart) at 2. apply map_ext_in.
  intros c' Hin'%list_elem_of_In. case_decide as Hc'; [|done].
  destruct Hc' as [Hid _].
  rewrite (cart_keyed_inj cart c' c Hnd Hin' Hin Hid). by destruct c.
Qed.

(** X13.  Plus, then minus: when both updates are answered, raising the
    quantity of a cart row by one and then setting it back leaves the
    store as it was, provided the row had a quantity of at least 1 (below
    that, the second update is not issued). *)
Theorem updateQuantity_plus_minus user c w :
  reliable backend →
  cart_keyed (store w) →
  c ∈ cart_items (store w) →
  1 ≤ cart_quantity c →
  store
    (updateQuantity backend user (cart_id c) (cart_quantity c)
       (updateQuantity backend user (cart_id c) (cart_quantity c + 1) w).2).2
  = store w.
Proof.
  intros Hrel Hkeyed Hin Hge.
  rewrite !updateQuantity_store, !Hrel by lia. simpl.
  rewrite with_quantity_twice, with_quantity_same by done.
  by destruct (store w).
Qed.

(** ** Adding to the cart *)

Lemma loadCartCount_run user_id w :
  loadCartCount backend (Some user_id) w
  = (Normal tt,
     {| store := store w;
        clock := S (clock w);
        trace :=
          trace w ++ [Remote (cart_items_select_quantity user_id)
                             (failure backend (clock w));
                      match failure backend (clock w) with
                      | Some _ => ConsoleError "Error loading cart count:"
                      | None => SetCartCount (cart_count (store w) user_id)
                      end] |}).
Proof.
  unfold loadCartCount, try_catch, try_catch_finally, bind,
    from_cart_items_select_quantity, remote, emit, throw, ret. simpl.
  destruct (failure backend (clock w)); simpl; rewrite <-!(assoc_L (++));
    by destruct w as [[] ? ?].
Qed.

Lemma handleAddToCart_existing_run user_id (product : @Product uuid num) w c :
  reliable backend →
  filter (λ c, cart_buyer_id c = user_id
               ∧ cart_product_id c = prod_id product)
         (cart_items (store w)) = [c] →
  handleAddToCart backend (Some user_id) (Some Role.buyer) product w
  = (Normal tt,
     let s :=
       {| orders := orders (store w);
          order_items := order_items (store w);
          products := products (store w);
          cart_items :=
            with_quantity (Some user_id) (cart_id c) (cart_quantity c + 1)
              (cart_items (store w)) |} in
     {| store := s;
        clock := S (S (S (clock w)));
        trace :=
          trace w ++ [Remote (cart_items_find user_id (prod_id product)) None;
                      Remote (cart_items_update (cart_id c)
                                (cart_quantity c + 1)) None;
                      Remote (cart_items_select_quantity user_id) None;
                      SetCartCount (cart_count s user_id)] |}).
Proof.
  intros Hrel Hfind. unfold handleAddToCart.
  rewrite decide_False by (by intros []).
  unfold try_catch, try_catch_finally, bind at 1 2, from_cart_items_find,
    remote. rewrite Hrel, Hfind. cbn -[loadCartCount].
  unfold bind, from_cart_items_update, remote. rewrite Hrel.
  cbn -[loadCartCount]. rewrite loadCartCount_run, Hrel. simpl.
  by rewrite <-!(assoc_L (++)).
Qed.

Lemma handleAddToCart_absent_run user_id (product : @Product uuid num) w :
  reliable backend →
  filter (λ c, cart_buyer_id c = user_id
               ∧ cart_product_id c = prod_id product)
         (cart_items (store w)) = [] →
  handleAddToCart backend (Some user_id) (Some Role.buyer) product w
  = (Normal tt,
     let s :=
       {| orders := orders (store w);
          order_items := order_items (store w);
          products := products (store w);
          cart_items :=
            cart_items (store w)
            ++ [{| cart_id := fresh (cart_id <$> cart_items (store w));
                   cart_buyer_id := user_id;
                   cart_product_id := prod_id product;
                   cart_quantity := 1 |}] |} in
     {| store := s;
        clock := S (S (S (clock w)));
        trace :=
          trace w ++ [Remote (cart_items_find user_id (prod_id product)) None;
                      Remote (cart_items_insert user_id (prod_id product)) None;
                      Remote (cart_items_select_quantity user_id) None;
                      SetCartCount (cart_count s user_id)] |}).
Proof.
  intros Hrel Hfind. unfold handleAddToCart.
  rewrite decide_False by (by intros []).
  unfold try_catch, try_catch_finally, bind at 1 2, from_cart_items_find,
    remote. rewrite Hrel, Hfind. cbn -[loadCartCount].
  unfold bind, from_cart_items_insert, remote. rewrite Hrel.
  cbn -[loadCartCount]. rewrite Hfind. cbn -[loadCartCount].
  rewrite loadCartCount_run, Hrel. simpl.
  by rewrite <-!(assoc_L (++)).
Qed.

Lemma sum_quantities_shift (l : list Z) (a : Z) :
  fold_left (λ sum quantity, sum + quantity) l a
  = a + fold_left (λ sum quantity, sum + quantity) l 0.
Proof.
  revert a. induction l as [|q l IH]; intros a; simpl; [lia|].
  rewrite IH, (IH (0 + q)). lia.
Qed.

Lemma cart_count_app (s : @Store uuid num) buyer_id before after :
  cart_items s = before ++ after →
  cart_count s buyer_id
  = fold_left (λ sum quantity, sum + quantity)
      (map cart_quantity (filter (λ c, cart_buyer_id c = buyer_id) before)) 0
    + fold_left (λ sum quantity, sum + quantity)
        (map cart_quantity (filter (λ c, cart_buyer_id c = buyer_id) after)) 0.
Proof.
  intros Hcart. unfold cart_count.
  rewrite Hcart, filter_app, map_app, fold_left_app.
  apply sum_quantities_shift.
Qed.

(** X14.  When every call is answered and a buyer adds a product, the cart
    count that the page shows afterwards is the count of the buyer's cart
    before, plus one: whether the product was in the cart or not. *)
Theorem handleAddToCart_count user_id (product : @Product uuid num) w :
  reliable backend →
  cart_unique (store w) →
  cart_keyed (store w) →
  ∃ es,
    trace (handleAddToCart backend (Some user_id) (Some Role.buyer)
             product w).2
    = trace w ++ es ++ [SetCartCount (cart_count (store w) user_id + 1)].
Proof.
  intros Hrel Hunique Hkeyed.
  destruct (filter (λ c, cart_buyer_id c = user_id
                         ∧ cart_product_id c = prod_id product)
                   (cart_items (store w))) as [|c rest] eqn:Hfind.
  - rewrite handleAddToCart_absent_run by done. simpl.
    eexists [_; _; _]. simpl. do 5 f_equal.
    rewrite (cart_count_app _ _ (cart_items (store w)) [_]) by done.
    rewrite filter_cons_True, filter_nil by done. simpl.
    unfold cart_count. f_equal; lia.
  - assert (c ∈ cart_items (store w)
            ∧ cart_buyer_id c = user_id ∧ cart_product_id c = prod_id product)
      as (Hin & Hb & Hp).
    { assert (c ∈ c :: rest) as Hc by apply list_elem_of_here.
      rewrite <-Hfind in Hc. apply list_elem_of_filter in Hc. tauto. }
    assert (rest = []) as ->.
    { pose proof (cart_filter_unique _ c Hunique Hin) as Hone.
      rewrite Hb, Hp, Hfind in Hone. by injection Hone. }
    rewrite (handleAddToCart_existing_run _ _ _ c) by done. simpl.
    eexists [_; _; _]. simpl. do 5 f_equal.
    destruct (cart_update_in_place _ c (cart_quantity c + 1) Hkeyed Hin)
      as (before & after & Hcart & Hcart'). rewrite Hb in Hcart'.
    rewrite (cart_count_app _ _ before (set_quantity (cart_quantity c + 1) c
                                         :: after)) by done.
    rewrite (cart_count_app (store w) _ before (c :: after)) by done.
    rewrite !filter_cons_True by done. simpl.
    rewrite (sum_quantities_shift _ (0 + (cart_quantity c + 1))),
      (sum_quantities_shift _ (0 + cart_quantity c)). f_equal; lia.
Qed.

(** X15.  Adding the same product twice to a cart that does not hold it,
    every call being answered, leaves one new row for it, with quantity
    2. *)
Theorem handleAddToCart_twice user_id (product : @Product uuid num) w :
  reliable backend →
  cart_unique (store w) →
  (∀ c, c ∈ cart_items (store w) →
        ¬ (cart_buyer_id c = user_id ∧ cart_product_id c = prod_id product)) →
  cart_items
    (store
       (handleAddToCart backend (Some user_id) (Some Role.buyer) product
          (handleAddToCart backend (Some user_id) (Some Role.buyer) product
             w).2).2)
  = cart_items (store w)
    ++ [{| cart_id := fresh (cart_id <$> cart_items (store w));
           cart_buyer_id := user_id;
           cart_product_id := prod_id product;
           cart_quantity := 2 |}].
Proof.
  intros Hrel Hunique Habsent.
  pose proof (cart_filter_absent _ _ _ Habsent) as Hnone.
  rewrite (handleAddToCart_absent_run _ _ w) by done. cbv zeta. cbn [snd].
  set (new := {| cart_id := fresh (cart_id <$> cart_items (store w));
                 cart_buyer_id := user_id;
                 cart_product_id := prod_id product;
                 cart_quantity := 1 |}).
  rewrite (handleAddToCart_existing_run _ _ _ new); [|done|].
  - simpl. unfold with_quantity. rewrite map_app. simpl.
    rewrite decide_True by done.
    fold (with_quantity (Some user_id)
            (fresh (cart_id <$> cart_items (store w))) (1 + 1)
            (cart_items (store w))).
    rewrite cart_update_missing by apply infinite_is_fresh. done.
  - simpl. rewrite filter_app, Hnone, filter_cons_True, filter_nil by done.
    done.
Qed.

(** X16.  A lookup answered with an error is read as "not in the cart".
    If the cart does hold the product, the insert that follows is rejected
    by the store: the cart stays as it is and the failure is reported. *)
Theorem handleAddToCart_lookup_error user_id (product : @Product uuid num)
    w c e :
  failure backend (clock w) = Some e →
  c ∈ cart_items (store w) →
  cart_buyer_id c = user_id →
  cart_product_id c = prod_id product →
  ∃ e',
    handleAddToCart backend (Some user_id) (Some Role.buyer) product w
    = (Normal tt,
       {| store := store w;
          clock := S (S (clock w));
          trace :=
            trace w ++ [Remote (cart_items_find user_id (prod_id product))
                               (Some e);
                        Remote (cart_items_insert user_id (prod_id product))
                               (Some e');
                        ConsoleError "Error adding to cart:";
                        Alert "Failed to add item to cart"] |}).
Proof.
  intros He Hin Hb Hp. unfold handleAddToCart.
  rewrite decide_False by (by intros []).
  unfold try_catch, try_catch_finally, bind, from_cart_items_find,
    from_cart_items_insert, remote, throw, emit, ret. rewrite He. simpl.
  assert (c ∈ filter (λ c, cart_buyer_id c = user_id
                           ∧ cart_product_id c = prod_id product)
                (cart_items (store w))) as Hc
    by (by apply list_elem_of_filter).
  destruct (failure backend (S (clock w))) as [e'|]; simpl.
  - exists e'. by rewrite <-!(assoc_L (++)).
  - destruct (filter _ (cart_items (store w))) as [|c' rest];
      [by apply elem_of_nil in Hc|]. simpl.
    eexists. by rewrite <-!(assoc_L (++)).
Qed.

(** X17.  No run of [handleAddToCart] touches orders, item rows or the
    catalog, removes a cart row, or changes the buyer or product of one;
    it adds at most one row, and that row is for the signed-in user and
    the given product.  For a visitor or an account that is not a buyer it
    issues no remote call at all. *)
Theorem handleAddToCart_frame user profile (product : @Product uuid num) w :
  orders (store (handleAddToCart backend user profile product w).2)
  = orders (store w)
  ∧ order_items (store (handleAddToCart backend user profile product w).2)
    = order_items (store w)
  ∧ products (store (handleAddToCart backend user profile product w).2)
    = products (store w)
  ∧ (cart_pair <$> cart_items
                     (store (handleAddToCart backend user profile product w).2)
     = cart_pair <$> cart_items (store w)
     ∨ ∃ user_id,
         user = Some user_id
         ∧ cart_pair <$> cart_items
                           (store (handleAddToCart backend user profile
                                     product w).2)
           = (cart_pair <$> cart_items (store w))
             ++ [(user_id, prod_id product)])
  ∧ (user = None ∨ profile ≠ Some Role.buyer →
     clock (handleAddToCart backend user profile product w).2 = clock w
     ∧ store (handleAddToCart backend user profile product w).2 = store w).
Proof.
  destruct (handleAddToCart_store backend user profile product w)
    as (Ho & Hi & Hp & Hcart).
  split_and!; [done..| |].
  - destruct Hcart as [->|[(uid & id & quantity & ->)|(u & -> & _ & ->)]].
    + by left.
    + left. apply cart_update_pairs.
    + right. exists u. split; [done|]. by rewrite fmap_app.
  - unfold handleAddToCart. intros [->|Hrole]; [done|].
    destruct user; [|done]. by rewrite decide_True.
Qed.

(** ** Removing a cart row *)

Implicit Types (x : @Session uuid num).

Lemma lift_loadCart_tables user x :
  (lift (loadCart backend user) x).1 = Normal tt
  ∧ tables (lift (loadCart backend user) x).2 = tables x
  ∧ chats (lift (loadCart backend user) x).2 = chats x.
Proof.
  unfold lift.
  destruct (loadCart_store user
              {| store := tables x; clock := calls x; trace := [] |})
    as [Hr Hs].
  destruct (loadCart backend user _) as [r w]. simpl in *. by subst.
Qed.

Lemma removeItem_tables user itemId x :
  tables (removeItem backend user itemId x).2
  = match failure backend (calls x) with
    | Some _ => tables x
    | None =>
        {| orders := orders (tables x);
           order_items := order_items (tables x);
           products := products (tables x);
           cart_items :=
             filter (λ c, ¬ (cart_id c = itemId
                             ∧ user = Some (cart_buyer_id c)))
                    (cart_items (tables x)) |}
    end
  ∧ chats (removeItem backend user itemId x).2 = chats x.
Proof.
  unfold removeItem, try_catch', bind', from_cart_items_delete, remote',
    throw', emit'.
  destruct (failure backend (calls x)); simpl; [done|].
  match goal with
  | |- context [lift (loadCart backend user) ?x0] =>
      destruct (lift_loadCart_tables user x0) as (Hr & Ht & Hc);
      destruct (lift (loadCart backend user) x0) as [r1 x1]
  end.
  simpl in *. subst r1. simpl. by rewrite Ht, Hc.
Qed.

(** A delete by id removes nothing when the table has no row with that id
    that belongs to the session user. *)
Lemma cart_delete_other uid cart id :
  (∀ c, c ∈ cart → cart_id c = id → uid ≠ Some (cart_buyer_id c)) →
  filter (λ c, ¬ (cart_id c = id ∧ uid = Some (cart_buyer_id c))) cart = cart.
Proof.
  induction cart as [|c cart IH]; [done|].
  intros Hnone. rewrite filter_cons_True.
  - f_equal. apply IH. intros c' Hin. apply Hnone.
    by apply list_elem_of_further.
  - intros [Hid Hown]. by apply (Hnone c); [apply list_elem_of_here|..].
Qed.

Lemma cart_delete_missing uid cart id :
  id ∉ cart_id <$> cart →
  filter (λ c, ¬ (cart_id c = id ∧ uid = Some (cart_buyer_id c))) cart = cart.
Proof.
  intros Hnotin. apply cart_delete_other. intros c Hin Hid. exfalso.
  apply Hnotin. rewrite <-Hid. apply list_elem_of_fmap. by exists c.
Qed.

Lemma cart_delete_in_place cart c :
  NoDup (cart_id <$> cart) → c ∈ cart →
  ∃ before after,
    cart = before ++ c :: after
    ∧ filter (λ c', ¬ (cart_id c' = cart_id c
                       ∧ Some (cart_buyer_id c) = Some (cart_buyer_id c')))
             cart
      = before ++ after.
Proof.
  intros Hnd (before & after & ->)%list_elem_of_split.
  exists before, after. split; [done|].
  rewrite fmap_app in Hnd. csimpl in Hnd.
  apply NoDup_app in Hnd as (_ & Hbefore & [Hafter _]%NoDup_cons).
  rewrite filter_app, filter_cons_False by (by intros []).
  rewrite !cart_delete_missing; [done..|].
  intros Hin. apply (Hbefore _ Hin), list_elem_of_here.
Qed.

(** X18.  [removeItem].  When the delete is answered, a row with the given
    id that belongs to the signed-in user is removed, and every other row
    and table stays as it is; a row with the given id that belongs to
    somebody else stays, and nothing is removed when the id is that of no
    row.  When the delete is answered with an error, nothing is removed,
    the cart is not reloaded, and the error is logged. *)
Theorem removeItem_effect user itemId x :
  cart_keyed (tables x) →
  (failure backend (calls x) = None →
   orders (tables (removeItem backend user itemId x).2) = orders (tables x)
   ∧ order_items (tables (removeItem backend user itemId x).2)
     = order_items (tables x)
   ∧ products (tables (removeItem backend user itemId x).2)
     = products (tables x)
   ∧ chats (removeItem backend user itemId x).2 = chats x
   ∧ (∀ c, c ∈ cart_items (tables x) → cart_id c = itemId →
        (user = Some (cart_buyer_id c) →
         ∃ before after,
           cart_items (tables x) = before ++ c :: after
           ∧ cart_items (tables (removeItem backend user itemId x).2)
             = before ++ after)
        ∧ (user ≠ Some (cart_buyer_id c) →
           cart_items (tables (removeItem backend user itemId x).2)
           = cart_items (tables x)))
   ∧ (itemId ∉ cart_id <$> cart_items (tables x) →
      cart_items (tables (removeItem backend user itemId x).2)
      = cart_items (tables x)))
  ∧ (∀ e, failure backend (calls x) = Some e →
       removeItem backend user itemId x
       = (Normal tt,
          {| tables := tables x;
             chats := chats x;
             calls := S (calls x);
             history :=
               history x ++ [Remote' (cart_items_delete itemId) (Some e);
                             Earlier (ConsoleError "Error removing item:")] |})).
Proof.
  intros Hkeyed. split.
  - intros Hok.
    destruct (removeItem_tables user itemId x) as [-> ->]. rewrite Hok. simpl.
    split_and!; [done..| |].
    + intros c Hin <-. split.
      * intros ->. by apply cart_delete_in_place.
      * intros Hother. apply cart_delete_other. intros c' Hin' Hid.
        by rewrite (cart_keyed_inj _ c' c Hkeyed Hin' Hin Hid).
    + apply cart_delete_missing.
  - intros e He. unfold removeItem, try_catch', bind', from_cart_items_delete,
      remote', throw', emit'. rewrite He. simpl.
    by rewrite <-(assoc_L (++)).
Qed.

(** X19.  Adding and removing: when every call is answered and a buyer
    adds a product that the cart does not hold, the same buyer removing
    the row that the store created brings the cart table back to what it
    was; the same removal asked for in any other session leaves the new
    row in place. *)
Theorem add_then_remove user_id user (product : @Product uuid num) x :
  reliable backend →
  (∀ c, c ∈ cart_items (tables x) →
        ¬ (cart_buyer_id c = user_id ∧ cart_product_id c = prod_id product)) →
  cart_items
    (tables
       (removeItem backend user (fresh (cart_id <$> cart_items (tables x)))
          (lift (handleAddToCart backend (Some user_id) (Some Role.buyer)
                   product) x).2).2)
  = if decide (user = Some user_id) then cart_items (tables x)
    else cart_items (tables x)
         ++ [{| cart_id := fresh (cart_id <$> cart_items (tables x));
                cart_buyer_id := user_id;
                cart_product_id := prod_id product;
                cart_quantity := 1 |}].
Proof.
  intros Hrel Habsent.
  destruct (removeItem_tables user (fresh (cart_id <$> cart_items (tables x)))
              (lift (handleAddToCart backend (Some user_id) (Some Role.buyer)
                       product) x).2) as [-> _].
  rewrite Hrel. unfold lift.
  rewrite handleAddToCart_absent_run by (by try apply cart_filter_absent).
  simpl. rewrite filter_app.
  rewrite cart_delete_missing by apply infinite_is_fresh.
  case_decide as Huser.
  - rewrite filter_cons_False, filter_nil.
    + by rewrite (right_id_L [] (++)).
    + simpl. intros Hnot. by apply Hnot.
  - rewrite filter_cons_True; [done|]. simpl. by intros [_ ?].
Qed.

(** ** Opening a chat with a seller *)

Implicit Types (product : @Product uuid num).


(** The lookup yields no data: it was answered with an error, or it did
    not find exactly one row. *)
Lemma handleMessageSeller_no_data user_id product x :
  failure backend (calls x) ≠ None
  ∨ length (chats_of user_id (prod_seller_id product) (prod_id product)
              (chats x)) ≠ 1%nat →
  ∃ answer,
    handleMessageSeller backend (Some user_id) product x
    = (Normal tt,
       match failure backend (S (calls x)) with
       | None =>
           {| tables := tables x;
              chats :=
                chats x ++ [chat_row (fresh (chat_id <$> chats x)) user_id
                              (prod_seller_id product) (prod_id product)];
              calls := S (S (calls x));
              history :=
                history x
                ++ [Remote' (chats_find user_id (prod_seller_id product)
                               (prod_id product)) answer;
                    Remote' (chats_insert user_id (prod_seller_id product)
                               (prod_id product)) None;
                    SetShowChatModal true] |}
       | Some e =>
           {| tables := tables x;
              chats := chats x;
              calls := S (S (calls x));
              history :=
                history x
                ++ [Remote' (chats_find user_id (prod_seller_id product)
                               (prod_id product)) answer;
                    Remote' (chats_insert user_id (prod_seller_id product)
                               (prod_id product)) (Some e);
                    Earlier (ConsoleError "Error creating chat:")] |}
       end).
Proof.
  intros Hno. unfold handleMessageSeller, try_catch', bind',
    from_chats_find, from_chats_insert, remote', emit', ret', throw'.
  destruct (failure backend (calls x)) as [e|] eqn:Hfirst; simpl.
  - eexists. destruct (failure backend (S (calls x))); simpl;
      by rewrite <-!(assoc_L (++)).
  - destruct Hno as [?|Hlen]; [done|].
    destruct (chats_of _ _ _ (chats x)) as [|chat [|chat' rest]];
      [|done|]; simpl; eexists;
      destruct (failure backend (S (calls x))); simpl;
      by rewrite <-!(assoc_L (++)).
Qed.




(** X21.  The lookup of [handleMessageSeller] is read as "no chat yet"
    whenever it yields no data: also when it is answered with an error, and
    when the triple already has two chats or more.  If the insert is then
    answered, one more chat for the triple is stored, whatever the table
    held, and the chat modal opens. *)
Theorem handleMessageSeller_duplicates user_id product x :
  failure backend (calls x) ≠ None
  ∨ (2 ≤ length (chats_of user_id (prod_seller_id product) (prod_id product)
                   (chats x)))%nat →
  failure backend (S (calls x)) = None →
  chats (handleMessageSeller backend (Some user_id) product x).2
  = chats x ++ [chat_row (fresh (chat_id <$> chats x)) user_id
                  (prod_seller_id product) (prod_id product)]
  ∧ last (history (handleMessageSeller backend (Some user_id) product x).2)
    = Some (SetShowChatModal true).
Proof.
  intros Hno Hok.
  destruct (handleMessageSeller_no_data user_id product x)
    as (answer & ->); [destruct Hno; [by left | right; lia]|].
  rewrite Hok. simpl. split; [done|]. by rewrite last_app.
Qed.

End More_facts.

(** ** The properties on the concrete marketplace *)

Section Witnesses.

Import Scenario.

Lemma answering_reliable : reliable answering.
Proof. intros n. reflexivity. Defined.

Lemma store0_referential : referential store0.
Proof. intros row Hrow. simpl in Hrow. by apply elem_of_nil in Hrow. Defined.

End Witnesses.

Lemma checkout_one_order_per_seller_witness :
  reliable Scenario.answering
  ∧ referential Scenario.store0
  ∧ NoDup (groupedBySeller Scenario.cart).*1
  ∧ (∀ sellerId,
       sellerId ∈ (groupedBySeller Scenario.cart).*1
       ↔ ∃ item, item ∈ Scenario.cart
                 ∧ prod_seller_id (product item) = sellerId)
  ∧ (∀ sellerId sellerItems,
       (sellerId, sellerItems) ∈ groupedBySeller Scenario.cart →
       sellerItems
       = filter (λ item, prod_seller_id (product item) = sellerId)
                Scenario.cart)
  ∧ ∃ created,
      orders (store (Scenario.after Scenario.answering Scenario.cart))
      = orders Scenario.store0 ++ created
      ∧ Forall2
          (λ order entry,
             ord_seller_id order = entry.1
             ∧ items_of (store (Scenario.after Scenario.answering Scenario.cart))
                 order
               = orderItems order entry.2)
          created (groupedBySeller Scenario.cart).
Proof.
  split; [exact answering_reliable|].
  split; [exact store0_referential|].
  exact (checkout_one_order_per_seller Scenario.answering Scenario.buyer
           Scenario.form Scenario.cart Scenario.world0
           answering_reliable store0_referential).
Defined.

(** C2.  The two-seller checkout in which the item insert of the second
    group (the fifth call) is answered with an error: the first order has
    the total of its rows, the second order stays without rows. *)
Lemma checkout_amounts_witness :
  referential Scenario.store0
  ∧ ∃ created new_rows,
      orders (store (Scenario.after (Scenario.failing_at 4) Scenario.cart))
      = orders Scenario.store0 ++ created
      ∧ order_items
          (store (Scenario.after (Scenario.failing_at 4) Scenario.cart))
        = order_items Scenario.store0 ++ new_rows
      ∧ Forall (λ row,
                  item_total_price row
                  = times (item_price_per_unit row) (item_quantity row)
                  ∧ ∃ item, item ∈ Scenario.cart
                      ∧ item_price_per_unit row = prod_price (product item)
                      ∧ item_product_id row = cart_product_id (line item)
                      ∧ item_quantity row = cart_quantity (line item))
               new_rows
      ∧ Forall (λ order,
                  ord_total_amount order
                  = sum_total_price
                      (items_of
                         (store (Scenario.after (Scenario.failing_at 4)
                                   Scenario.cart)) order)
                  ∨ (last created = Some order
                     ∧ items_of
                         (store (Scenario.after (Scenario.failing_at 4)
                                   Scenario.cart)) order = []
                     ∧ ∃ err,
                         Remote order_items_insert (Some err)
                         ∈ new_events Scenario.world0
                             (Scenario.after (Scenario.failing_at 4)
                                Scenario.cart)))
               created
      ∧ (reliable (Scenario.failing_at 4) →
         Forall (λ order,
                   ord_total_amount order
                   = sum_total_price
                       (items_of
                          (store (Scenario.after (Scenario.failing_at 4)
                                    Scenario.cart)) order))
                created).
Proof.
  split; [exact store0_referential|].
  exact (checkout_amounts (Scenario.failing_at 4) (Some Scenario.buyer)
           Scenario.form Scenario.cart Scenario.world0 store0_referential).
Defined.

(** C2.  In that run the orders of 398 and 299 are both stored, and the
    one item row is that of the first order. *)
Lemma checkout_amounts_example :
  (λ order, (ord_id order, ord_total_amount order))
    <$> orders (store (Scenario.after (Scenario.failing_at 4) Scenario.cart))
  = [(0%nat, 398); (1%nat, 299)]
  ∧ (λ row, (item_order_id row, item_total_price row))
      <$> order_items
            (store (Scenario.after (Scenario.failing_at 4) Scenario.cart))
    = [(0%nat, 398)]
  ∧ last (trace (Scenario.after (Scenario.failing_at 4) Scenario.cart))
    = Some (SetLoading false)
  ∧ Alert "Failed to create order. Please try again."
    ∈ trace (Scenario.after (Scenario.failing_at 4) Scenario.cart).
Proof.
  split; [vm_compute; reflexivity|]. split; [vm_compute; reflexivity|].
  split; [vm_compute; reflexivity|].
  vm_compute. do 7 apply list_elem_of_further. apply list_elem_of_here.
Qed.

(** C2.  The claim as it stands fails where the item insert is answered
    with an error: the checkout of the two-seller cart whose second call
    fails leaves an order of 398 that has no item row, so that the sum of
    its rows is 0. *)
Lemma checkout_amounts_counterexample :
  orders (store (Scenario.after (Scenario.failing_at 1) Scenario.cart))
  = [order_row Scenario.buyer Scenario.form 101%nat [Scenario.line1]
       "ORD-1-ABCDEFGHI" 0%nat]
  ∧ order_items (store (Scenario.after (Scenario.failing_at 1) Scenario.cart))
    = []
  ∧ ∃ order,
      order ∈ orders
                (store (Scenario.after (Scenario.failing_at 1) Scenario.cart))
      ∧ ord_total_amount order = 398
      ∧ sum_total_price
          (items_of
             (store (Scenario.after (Scenario.failing_at 1) Scenario.cart))
             order) = 0
      ∧ ord_total_amount order
        ≠ sum_total_price
            (items_of
               (store (Scenario.after (Scenario.failing_at 1) Scenario.cart))
               order).
Proof.
  split; [vm_compute; reflexivity|]. split; [vm_compute; reflexivity|].
  exists (order_row Scenario.buyer Scenario.form 101%nat [Scenario.line1]
            "ORD-1-ABCDEFGHI" 0%nat).
  split; [vm_compute; apply list_elem_of_here|].
  split; [vm_compute; reflexivity|]. split; [vm_compute; reflexivity|].
  vm_compute. discriminate.
Qed.

(** C3.  The buyer checks out twelve units of a product with ten in
    stock, and the store answers the stock update (the third call) with an
    error.  The error is dropped: the stock stays at 10, the run goes on to
    clear the cart and signals success; no alert is shown. *)
Lemma checkout_ignores_stock_update_error :
  handleSubmit (Scenario.failing_at 2) (Some Scenario.buyer) Scenario.form
    [Scenario.overdrawn] Scenario.world0
  = (Normal tt,
     {| store :=
          {| orders :=
               [order_row Scenario.buyer Scenario.form 101%nat
                  [Scenario.overdrawn] "ORD-1-ABCDEFGHI" 0%nat];
             order_items :=
               [{| item_order_id := 0%nat; item_product_id := 1%nat;
                   item_quantity := 12; item_price_per_unit := 199;
                   item_total_price := 2388 |}];
             products := [Scenario.P1; Scenario.P2];
             cart_items := [Scenario.row3] |};
        clock := 4;
        trace :=
          [SetLoading true;
           Remote orders_insert None;
           Remote order_items_insert None;
           Remote (products_update 1%nat (-2)) (Some "error");
           Remote (cart_items_delete_buyer 7%nat) None;
           OnSuccess; OnClose; SetLoading false] |}).
Proof. vm_compute. reflexivity. Qed.

(** C3.  Likewise when the cart delete (the fourth call) is answered with
    an error: the cart keeps the rows of the buyer and success is
    signalled. *)
Lemma checkout_ignores_cart_delete_error :
  cart_items (store (Scenario.after (Scenario.failing_at 3) [Scenario.line1]))
  = [Scenario.row1; Scenario.row2; Scenario.row3]
  ∧ trace (Scenario.after (Scenario.failing_at 3) [Scenario.line1])
    = [SetLoading true;
       Remote orders_insert None;
       Remote order_items_insert None;
       Remote (products_update 1%nat 8) None;
       Remote (cart_items_delete_buyer 7%nat) (Some "error");
       OnSuccess; OnClose; SetLoading false].
Proof. vm_compute. by split. Qed.

(** By contrast, an error of either insert is thrown and reported: here
    the item insert (the second call) fails, the order stays without item
    rows, and the alert is shown. *)
Lemma checkout_reports_insert_error :
  handleSubmit (Scenario.failing_at 1) (Some Scenario.buyer) Scenario.form
    [Scenario.line1] Scenario.world0
  = (Normal tt,
     {| store :=
          {| orders :=
               [order_row Scenario.buyer Scenario.form 101%nat
                  [Scenario.line1] "ORD-1-ABCDEFGHI" 0%nat];
             order_items := [];
             products := [Scenario.P1; Scenario.P2];
             cart_items := [Scenario.row1; Scenario.row2; Scenario.row3] |};
        clock := 2;
        trace :=
          [SetLoading true;
           Remote orders_insert None;
           Remote order_items_insert (Some "error");
           ConsoleError "Error creating order:";
           Alert "Failed to create order. Please try again.";
           SetLoading false] |}).
Proof. vm_compute. reflexivity. Qed.

(** The example of the specification, on a backend that answers every
    call: two orders of 398 and 299, both with payment pending, and no cart
    row left for the buyer.  The stock updates ask for 8 and 4 and are
    answered without an error, but buyer 7 sells neither product: the
    stocks stay at 10 and 5. *)
Lemma checkout_example :
  (λ order, (ord_seller_id order, ord_total_amount order,
             ord_payment_status order))
    <$> orders (store (Scenario.after Scenario.answering Scenario.cart))
  = [(101%nat, 398, PaymentStatus.pending);
     (102%nat, 299, PaymentStatus.pending)]
  ∧ (λ p, (prod_id p, prod_stock_quantity p))
      <$> products (store (Scenario.after Scenario.answering Scenario.cart))
    = [(1%nat, 10); (2%nat, 5)]
  ∧ trace (Scenario.after Scenario.answering Scenario.cart)
    = [SetLoading true;
       Remote orders_insert None;
       Remote order_items_insert None;
       Remote (products_update 1%nat 8) None;
       Remote orders_insert None;
       Remote order_items_insert None;
       Remote (products_update 2%nat 4) None;
       Remote (cart_items_delete_buyer 7%nat) None;
       OnSuccess; OnClose; SetLoading false]
  ∧ cart_items (store (Scenario.after Scenario.answering Scenario.cart))
    = [Scenario.row3].
Proof. vm_compute. by split_and!. Qed.

(** C3.  When the user sells the product checked out, the store itself
    rejects a stock below zero ([CHECK (stock_quantity >= 0)]): user 101
    checks out twelve units of product 1 against a snapshot of 10, on a
    backend that fails no call.  The error of the update is dropped as
    well: the stock stays at 10, the cart is cleared and success is
    signalled. *)
Lemma checkout_ignores_check_violation :
  handleSubmit Scenario.answering (Some Scenario.seller) Scenario.form
    [Scenario.own_overdrawn] Scenario.world1
  = (Normal tt,
     {| store :=
          {| orders :=
               [order_row Scenario.seller Scenario.form 101%nat
                  [Scenario.own_overdrawn] "ORD-1-ABCDEFGHI" 0%nat];
             order_items :=
               [{| item_order_id := 0%nat; item_product_id := 1%nat;
                   item_quantity := 12; item_price_per_unit := 199;
                   item_total_price := 2388 |}];
             products := [Scenario.P1; Scenario.P2];
             cart_items := [Scenario.row1; Scenario.row2; Scenario.row3] |};
        clock := 4;
        trace :=
          [SetLoading true;
           Remote orders_insert None;
           Remote order_items_insert None;
           Remote (products_update 1%nat (-2))
             (Some "new row for relation products violates check constraint");
           Remote (cart_items_delete_buyer 101%nat) None;
           OnSuccess; OnClose; SetLoading false] |}).
Proof. vm_compute. reflexivity. Qed.

Lemma checkout_second_seller_fails_witness :
  groupedBySeller Scenario.cart
  = [(101%nat, [Scenario.line1]); (102%nat, [Scenario.line2])]
  ∧ failure (Scenario.failing_at 3) 0 = None
  ∧ failure (Scenario.failing_at 3) 1 = None
  ∧ failure (Scenario.failing_at 3) 3 = Some "error"
  ∧ orders (store (Scenario.after (Scenario.failing_at 3) Scenario.cart))
    = [next_order (Scenario.failing_at 3) Scenario.buyer Scenario.form
         101%nat [Scenario.line1] Scenario.world0]
  ∧ order_items (store (Scenario.after (Scenario.failing_at 3) Scenario.cart))
    = orderItems
        (next_order (Scenario.failing_at 3) Scenario.buyer Scenario.form
           101%nat [Scenario.line1] Scenario.world0) [Scenario.line1]
  ∧ cart_items (store (Scenario.after (Scenario.failing_at 3) Scenario.cart))
    = [Scenario.row1; Scenario.row2; Scenario.row3]
  ∧ ∃ es,
      trace (Scenario.after (Scenario.failing_at 3) Scenario.cart)
      = [] ++ SetLoading true
           :: es ++ [Remote orders_insert (Some "error");
                     ConsoleError "Error creating order:";
                     Alert "Failed to create order. Please try again.";
                     SetLoading false]
      ∧ Forall checkout_call es.
Proof.
  split; [reflexivity|]. split; [reflexivity|]. split; [reflexivity|].
  split; [reflexivity|].
  exact (checkout_second_seller_fails (Scenario.failing_at 3) Scenario.buyer
           Scenario.form Scenario.cart Scenario.world0
           101%nat [Scenario.line1] 102%nat [Scenario.line2] "error"
           eq_refl eq_refl eq_refl eq_refl).
Defined.


(** C5.  That checkout leaves product 1 with a stock of 7. *)
Lemma checkout_stock_example :
  (λ p, (prod_id p, prod_stock_quantity p))
    <$> products
          (store (handleSubmit Scenario.answering (Some Scenario.seller)
                    Scenario.form [Scenario.own_line] Scenario.world1).2)
  = [(1%nat, 7); (2%nat, 5)].
Proof. vm_compute. reflexivity. Qed.


Lemma checkout_clears_cart_witness :
  reliable Scenario.answering
  ∧ cart_items (store (Scenario.after Scenario.answering Scenario.cart))
    = filter (λ c, cart_buyer_id c ≠ Scenario.buyer)
             (cart_items Scenario.store0)
  ∧ (∀ c, c ∈ cart_items
                (store (Scenario.after Scenario.answering Scenario.cart))
          → cart_buyer_id c ≠ Scenario.buyer)
  ∧ OnSuccess ∈ trace (Scenario.after Scenario.answering Scenario.cart).
Proof.
  split; [exact answering_reliable|].
  exact (checkout_clears_cart Scenario.answering Scenario.buyer Scenario.form
           Scenario.cart Scenario.world0 answering_reliable).
Defined.

Lemma checkout_empty_witness :
  failure Scenario.answering (clock Scenario.world0) = None
  ∧ cart_items (store (Scenario.after Scenario.answering []))
    = filter (λ c, cart_buyer_id c ≠ Scenario.buyer)
             (cart_items Scenario.store0).
Proof.
  split; [reflexivity|].
  destruct (checkout_empty Scenario.answering Scenario.buyer Scenario.form
              Scenario.world0) as (_ & _ & _ & _ & Hcart).
  exact (Hcart eq_refl).
Defined.

Lemma updateQuantity_guard_witness :
  0 < 1
  ∧ updateQuantity Scenario.answering (Some Scenario.buyer) 11%nat 0
      Scenario.world0
    = (Normal tt, Scenario.world0).
Proof.
  split; [lia|].
  destruct (updateQuantity_guard Scenario.answering (Some Scenario.buyer)
              11%nat 0 Scenario.world0) as (Hguard & _ & _).
  apply Hguard. lia.
Defined.


(** ** The further properties on the concrete marketplace *)

Lemma Z_exact_arithmetic : @exact_arithmetic Z _.
Proof. unfold exact_arithmetic. simpl. split_and!; intros; lia. Defined.

Lemma store0_cart_keyed : cart_keyed Scenario.store0.
Proof. apply (bool_decide_unpack _). vm_compute. exact I. Defined.

Lemma store0_cart_unique : cart_unique Scenario.store0.
Proof. apply (bool_decide_unpack _). vm_compute. exact I. Defined.

Lemma store0_without_P3 c :
  c ∈ cart_items Scenario.store0 →
  ¬ (cart_buyer_id c = Scenario.buyer
     ∧ cart_product_id c = prod_id Scenario.P3).
Proof.
  simpl. rewrite !elem_of_cons. intros [->|[->|[->|Hin]]] [_ Hp];
    [discriminate Hp..|]. by apply elem_of_nil in Hin.
Defined.

Lemma checkout_item_rows_witness :
  reliable Scenario.answering
  ∧ ∃ new_rows,
      order_items (store (Scenario.after Scenario.answering Scenario.cart))
      = order_items Scenario.store0 ++ new_rows
      ∧ row_line <$> new_rows ≡ₚ line_row <$> Scenario.cart.
Proof.
  split; [exact answering_reliable|].
  exact (checkout_item_rows Scenario.answering Scenario.buyer Scenario.form
           Scenario.cart Scenario.world0 answering_reliable).
Defined.

Lemma checkout_total_witness :
  @exact_arithmetic Z _
  ∧ reliable Scenario.answering
  ∧ ∃ created,
      orders (store (Scenario.after Scenario.answering Scenario.cart))
      = orders Scenario.store0 ++ created
      ∧ sum_total_amount created = total Scenario.cart.
Proof.
  split; [exact Z_exact_arithmetic|]. split; [exact answering_reliable|].
  exact (checkout_total Scenario.answering Z_exact_arithmetic Scenario.buyer
           Scenario.form Scenario.cart Scenario.world0 answering_reliable).
Defined.

Lemma checkout_calls_witness :
  reliable Scenario.answering
  ∧ clock (Scenario.after Scenario.answering Scenario.cart)
    = (clock Scenario.world0 + 2 * length (groupedBySeller Scenario.cart)
       + length Scenario.cart + 1)%nat.
Proof.
  split; [exact answering_reliable|].
  exact (checkout_calls Scenario.answering Scenario.buyer Scenario.form
           Scenario.cart Scenario.world0 answering_reliable).
Defined.

Lemma handleSubmit_referential_witness :
  referential Scenario.store0
  ∧ referential (store (Scenario.after Scenario.answering Scenario.cart))
  ∧ ∃ created blocks,
      orders (store (Scenario.after Scenario.answering Scenario.cart))
      = orders Scenario.store0 ++ created
      ∧ order_items (store (Scenario.after Scenario.answering Scenario.cart))
        = order_items Scenario.store0 ++ concat blocks
      ∧ Forall2 (λ order block,
                   Forall (λ row, item_order_id row = ord_id order) block)
                (take (length blocks) created) blocks
      ∧ Forall2 (λ block entry, row_line <$> block = line_row <$> entry.2)
                blocks (take (length blocks) (groupedBySeller Scenario.cart))
      ∧ (length created ≤ S (length blocks))%nat
      ∧ NoDup (ord_id <$> created)
      ∧ Forall (λ order, ord_id order ∉ ord_id <$> orders Scenario.store0)
               created.
Proof.
  split; [exact store0_referential|].
  exact (handleSubmit_referential Scenario.answering Scenario.buyer
           Scenario.form Scenario.cart Scenario.world0 store0_referential).
Defined.

(** X8.  On the concrete marketplace: two orders, with ids 0 and 1, and
    one item row for each, carrying its id. *)
Lemma handleSubmit_referential_example :
  ord_id <$> orders (store (Scenario.after Scenario.answering Scenario.cart))
  = [0%nat; 1%nat]
  ∧ (λ row, (item_order_id row, item_product_id row))
      <$> order_items (store (Scenario.after Scenario.answering Scenario.cart))
    = [(0%nat, 1%nat); (1%nat, 2%nat)].
Proof. vm_compute. by split. Qed.

Lemma checkout_twice_witness :
  reliable Scenario.answering
  ∧ NoDup (cart_product_id ∘ line <$> [Scenario.own_line])
  ∧ products
      (store (handleSubmit Scenario.answering (Some Scenario.seller)
                Scenario.form [Scenario.own_line]
                (handleSubmit Scenario.answering (Some Scenario.seller)
                   Scenario.form [Scenario.own_line] Scenario.world1).2).2)
    = products
        (store (handleSubmit Scenario.answering (Some Scenario.seller)
                  Scenario.form [Scenario.own_line] Scenario.world1).2)
  ∧ length
      (orders
         (store (handleSubmit Scenario.answering (Some Scenario.seller)
                   Scenario.form [Scenario.own_line]
                   (handleSubmit Scenario.answering (Some Scenario.seller)
                      Scenario.form [Scenario.own_line]
                      Scenario.world1).2).2))
    = (length (orders Scenario.store1)
       + 2 * length (groupedBySeller [Scenario.own_line]))%nat.
Proof.
  assert (NoDup (cart_product_id ∘ line <$> [Scenario.own_line])) as Hnd.
  { apply (bool_decide_unpack _). vm_compute. exact I. }
  split; [exact answering_reliable|]. split; [exact Hnd|].
  exact (checkout_twice Scenario.answering Scenario.seller Scenario.form
           [Scenario.own_line] Scenario.world1 answering_reliable Hnd).
Defined.

(** X10.  On the concrete marketplace: user 101 checks out three units of
    their own product 1 twice from one snapshot of 10; the stock is 7
    after the first run and still 7 after the second. *)
Lemma checkout_twice_example :
  prod_stock_quantity
    <$> products
          (store (handleSubmit Scenario.answering (Some Scenario.seller)
                    Scenario.form [Scenario.own_line] Scenario.world1).2)
  = [7; 5]
  ∧ prod_stock_quantity
      <$> products
            (store (handleSubmit Scenario.answering (Some Scenario.seller)
                      Scenario.form [Scenario.own_line]
                      (handleSubmit Scenario.answering (Some Scenario.seller)
                         Scenario.form [Scenario.own_line]
                         Scenario.world1).2).2)
    = [7; 5].
Proof. vm_compute. by split. Qed.


(** X12.  On the concrete marketplace: buyer 7 sets row 12, their own, to
    5 units; the same request for row 13, which belongs to buyer 8, is
    answered without an error and changes nothing. *)
Lemma updateQuantity_effect_example :
  cart_items
    (store (updateQuantity Scenario.answering (Some Scenario.buyer)
              12%nat 5 Scenario.world0).2)
  = [Scenario.row1; set_quantity 5 Scenario.row2; Scenario.row3]
  ∧ updateQuantity Scenario.answering (Some Scenario.buyer) 13%nat 5
      Scenario.world0
    = (Normal tt,
       {| store := Scenario.store0;
          clock := 2;
          trace :=
            [Remote (cart_items_update 13%nat 5) None;
             SetLoading true;
             Remote (cart_items_select 7%nat) None;
             SetCartItems [(Scenario.row1, Some Scenario.P1);
                           (Scenario.row2, Some Scenario.P2)];
             SetLoading false] |}).
Proof. vm_compute. by split. Qed.

Lemma updateQuantity_plus_minus_witness :
  reliable Scenario.answering
  ∧ cart_keyed Scenario.store0
  ∧ Scenario.row1 ∈ cart_items Scenario.store0
  ∧ 1 ≤ cart_quantity Scenario.row1
  ∧ store
      (updateQuantity Scenario.answering (Some Scenario.buyer) 11%nat 2
         (updateQuantity Scenario.answering (Some Scenario.buyer) 11%nat 3
            Scenario.world0).2).2
    = Scenario.store0.
Proof.
  assert (Scenario.row1 ∈ cart_items Scenario.store0) as Hin
    by apply list_elem_of_here.
  assert (1 ≤ cart_quantity Scenario.row1) as Hge by (simpl; lia).
  split; [exact answering_reliable|]. split; [exact store0_cart_keyed|].
  split; [exact Hin|]. split; [exact Hge|].
  exact (updateQuantity_plus_minus Scenario.answering (Some Scenario.buyer)
           Scenario.row1 Scenario.world0 answering_reliable
           store0_cart_keyed Hin Hge).
Defined.

Lemma handleAddToCart_count_witness :
  reliable Scenario.answering
  ∧ cart_unique Scenario.store0
  ∧ cart_keyed Scenario.store0
  ∧ ∃ es,
      trace (handleAddToCart Scenario.answering (Some Scenario.buyer)
               (Some Role.buyer) Scenario.P1 Scenario.world0).2
      = trace Scenario.world0
        ++ es ++ [SetCartCount
                    (cart_count Scenario.store0 Scenario.buyer + 1)].
Proof.
  split; [exact answering_reliable|]. split; [exact store0_cart_unique|].
  split; [exact store0_cart_keyed|].
  exact (handleAddToCart_count Scenario.answering Scenario.buyer Scenario.P1
           Scenario.world0 answering_reliable store0_cart_unique
           store0_cart_keyed).
Defined.

Lemma handleAddToCart_twice_witness :
  reliable Scenario.answering
  ∧ cart_unique Scenario.store0
  ∧ cart_items
      (store
         (handleAddToCart Scenario.answering (Some Scenario.buyer)
            (Some Role.buyer) Scenario.P3
            (handleAddToCart Scenario.answering (Some Scenario.buyer)
               (Some Role.buyer) Scenario.P3 Scenario.world0).2).2)
    = cart_items Scenario.store0
      ++ [{| cart_id := fresh (cart_id <$> cart_items Scenario.store0);
             cart_buyer_id := Scenario.buyer;
             cart_product_id := prod_id Scenario.P3;
             cart_quantity := 2 |}].
Proof.
  split; [exact answering_reliable|]. split; [exact store0_cart_unique|].
  exact (handleAddToCart_twice Scenario.answering Scenario.buyer Scenario.P3
           Scenario.world0 answering_reliable store0_cart_unique
           store0_without_P3).
Defined.

Lemma handleAddToCart_lookup_error_witness :
  failure (Scenario.failing_at 0) (clock Scenario.world0) = Some "error"
  ∧ Scenario.row1 ∈ cart_items Scenario.store0
  ∧ ∃ e',
      handleAddToCart (Scenario.failing_at 0) (Some Scenario.buyer)
        (Some Role.buyer) Scenario.P1 Scenario.world0
      = (Normal tt,
         {| store := Scenario.store0;
            clock := 2;
            trace :=
              trace Scenario.world0
              ++ [Remote (cart_items_find Scenario.buyer 1%nat) (Some "error");
                  Remote (cart_items_insert Scenario.buyer 1%nat) (Some e');
                  ConsoleError "Error adding to cart:";
                  Alert "Failed to add item to cart"] |}).
Proof.
  assert (Scenario.row1 ∈ cart_items Scenario.store0) as Hin
    by apply list_elem_of_here.
  split; [reflexivity|]. split; [exact Hin|].
  exact (handleAddToCart_lookup_error (Scenario.failing_at 0) Scenario.buyer
           Scenario.P1 Scenario.world0 Scenario.row1 "error"
           eq_refl Hin eq_refl eq_refl).
Defined.

Lemma removeItem_effect_witness :
  cart_keyed (tables Scenario.session0)
  ∧ failure Scenario.answering (calls Scenario.session0) = None
  ∧ (∃ before after,
       cart_items (tables Scenario.session0) = before ++ Scenario.row2 :: after
       ∧ cart_items
           (tables (removeItem Scenario.answering (Some Scenario.buyer) 12%nat
                      Scenario.session0).2)
         = before ++ after)
  ∧ cart_items
      (tables (removeItem Scenario.answering (Some Scenario.buyer) 13%nat
                 Scenario.session0).2)
    = cart_items (tables Scenario.session0).
Proof.
  split; [exact store0_cart_keyed|]. split; [reflexivity|]. split.
  - destruct (removeItem_effect Scenario.answering (Some Scenario.buyer)
                12%nat Scenario.session0 store0_cart_keyed) as [Hok _].
    destruct (Hok eq_refl) as (_ & _ & _ & _ & Hrow & _).
    destruct (Hrow Scenario.row2) as [Hown _]; [|reflexivity|].
    + apply list_elem_of_further, list_elem_of_here.
    + exact (Hown eq_refl).
  - destruct (removeItem_effect Scenario.answering (Some Scenario.buyer)
                13%nat Scenario.session0 store0_cart_keyed) as [Hok _].
    destruct (Hok eq_refl) as (_ & _ & _ & _ & Hrow & _).
    destruct (Hrow Scenario.row3) as [_ Hother]; [|reflexivity|].
    + do 2 apply list_elem_of_further. apply list_elem_of_here.
    + apply Hother. discriminate.
Defined.

(** X18.  On the concrete marketplace: buyer 7 removes row 12, their own;
    the same request for row 13, which belongs to buyer 8, is answered
    without an error and removes nothing. *)
Lemma removeItem_effect_example :
  cart_items
    (tables (removeItem Scenario.answering (Some Scenario.buyer) 12%nat
               Scenario.session0).2)
  = [Scenario.row1; Scenario.row3]
  ∧ cart_items
      (tables (removeItem Scenario.answering (Some Scenario.buyer) 13%nat
                 Scenario.session0).2)
    = [Scenario.row1; Scenario.row2; Scenario.row3]
  ∧ history (removeItem Scenario.answering (Some Scenario.buyer) 13%nat
               Scenario.session0).2
    = [Remote' (cart_items_delete 13%nat) None;
       Earlier (SetLoading true);
       Earlier (Remote (cart_items_select 7%nat) None);
       Earlier (SetCartItems [(Scenario.row1, Some Scenario.P1);
                              (Scenario.row2, Some Scenario.P2)]);
       Earlier (SetLoading false)].
Proof. vm_compute. by split_and!. Qed.

Lemma add_then_remove_witness :
  reliable Scenario.answering
  ∧ cart_items
      (tables
         (removeItem Scenario.answering (Some Scenario.buyer)
            (fresh (cart_id <$> cart_items (tables Scenario.session0)))
            (lift (handleAddToCart Scenario.answering (Some Scenario.buyer)
                     (Some Role.buyer) Scenario.P3) Scenario.session0).2).2)
    = cart_items (tables Scenario.session0)
  ∧ cart_items
      (tables
         (removeItem Scenario.answering (Some 8%nat)
            (fresh (cart_id <$> cart_items (tables Scenario.session0)))
            (lift (handleAddToCart Scenario.answering (Some Scenario.buyer)
                     (Some Role.buyer) Scenario.P3) Scenario.session0).2).2)
    = cart_items (tables Scenario.session0)
      ++ [{| cart_id := fresh (cart_id <$> cart_items (tables Scenario.session0));
             cart_buyer_id := Scenario.buyer;
             cart_product_id := prod_id Scenario.P3;
             cart_quantity := 1 |}].
Proof.
  split; [exact answering_reliable|]. split.
  - exact (add_then_remove Scenario.answering Scenario.buyer
             (Some Scenario.buyer) Scenario.P3 Scenario.session0
             answering_reliable store0_without_P3).
  - exact (add_then_remove Scenario.answering Scenario.buyer
             (Some 8%nat) Scenario.P3 Scenario.session0
             answering_reliable store0_without_P3).
Defined.

(** X11.  On the concrete marketplace: the cart of buyer 7 holds a unit of
    product 4, which seller 102 has deactivated; the row is shown without
    its product. *)
Lemma loadCart_hidden_product_example :
  loadCart Scenario.answering (Some Scenario.buyer) Scenario.world2
  = (Normal tt,
     {| store := Scenario.store2;
        clock := 1;
        trace :=
          [SetLoading true;
           Remote (cart_items_select 7%nat) None;
           SetCartItems [(Scenario.row1, Some Scenario.P1);
                         (Scenario.row5, None)];
           SetLoading false] |}).
Proof. vm_compute. reflexivity. Qed.



Lemma handleMessageSeller_duplicates_witness :
  failure (Scenario.failing_at 0) (calls Scenario.session1) ≠ None
  ∧ failure (Scenario.failing_at 0) (S (calls Scenario.session1)) = None
  ∧ chats (handleMessageSeller (Scenario.failing_at 0) (Some Scenario.buyer)
             Scenario.P1 Scenario.session1).2
    = [chat_row 21%nat 7%nat 101%nat 1%nat;
       chat_row (fresh [21%nat]) 7%nat 101%nat 1%nat].
Proof.
  assert (failure (Scenario.failing_at 0) (calls Scenario.session1) ≠ None)
    as Hfail by discriminate.
  split; [exact Hfail|]. split; [reflexivity|].
  destruct (handleMessageSeller_duplicates (Scenario.failing_at 0)
              Scenario.buyer Scenario.P1 Scenario.session1
              (or_introl Hfail) eq_refl) as [Hchats _].
  exact Hchats.
Defined.
